(** * Symphony analysis notebooks and sweep scripts

    A shallow embedding of the executable content of the repository:
    - the two sweep scripts ([sweep_scripts/tetris.sh] and the
      learning-rates script), as programs of a small shell fragment;
    - [optimize_coeffs] and the grid cell of the
      [resolution_random_points] notebook;
    - the result tables of the temperature-ablation notebook and of the
      OpenBabel metrics notebook.

    External libraries (JAX, optax, e3nn, pandas' numeric kernels, RDKit and
    OpenBabel metrics) are not part of the repository; they enter as the
    fields of interface records. *)

From Stdlib Require Import ZArith List String Ascii Bool Arith Lia QArith.
From Stdlib Require Import DecimalString Sorting.Sorted.
From Stdlib Require Import DecimalZ Sorting.Permutation.

Set Warnings "-register-all".
Import ListNotations.

Local Open Scope Z_scope.
Local Open Scope list_scope.

Notation "s1 ^^ s2" := (String.append s1 s2)
  (at level 60, right associativity) : list_scope.

(** [sub in s] *)
Definition contains (sub s : string) : bool :=
  match String.index 0 sub s with
  | Some _ => true
  | None => false
  end.

(** ** Python exceptions *)

Inductive exception : Type :=
| IndexError
| KeyError
| ValueError
| AssertionError
| LibraryError.

(** The outcome of a notebook cell or of a library call. *)
Inductive result (A : Type) : Type :=
| Ok (a : A)
| Raise (e : exception).

Arguments Ok {A} a.
Arguments Raise {A} e.

Definition bind {A B : Type} (r : result A) (f : A -> result B) : result B :=
  match r with
  | Ok a => f a
  | Raise e => Raise e
  end.

Notation "x <- r ;; k" := (bind r (fun x => k))
  (at level 61, r at next level, right associativity).
Notation "' p <- r ;; k" := (bind r (fun x => let p := x in k))
  (at level 61, p pattern, r at next level, right associativity).

(** A list comprehension whose element expression may raise. *)
Fixpoint traverse {A B : Type} (f : A -> result B) (l : list A)
    : result (list B) :=
  match l with
  | [] => Ok []
  | a :: l' => b <- f a ;; bs <- traverse f l' ;; Ok (b :: bs)
  end.

(** [range(n)]; empty when [n <= 0]. *)
Definition range (n : Z) : list Z := map Z.of_nat (seq 0 (Z.to_nat n)).

(** ** Python dictionaries: insertion-ordered association lists *)

Module Dict.
Section Dict.
Context {K V : Type} (eqb : K -> K -> bool).

Definition dict := list (K * V).

(** [d[k]], [None] standing for [KeyError]. *)
Fixpoint get (k : K) (d : dict) : option V :=
  match d with
  | [] => None
  | (k', v) :: d' => if eqb k k' then Some v else get k d'
  end.

(** [d[k] = v]: an existing key keeps its position, a new one goes last. *)
Fixpoint set (k : K) (v : V) (d : dict) : dict :=
  match d with
  | [] => [(k, v)]
  | (k', v') :: d' =>
      if eqb k k' then (k', v) :: d' else (k', v') :: set k v d'
  end.

Definition keys (d : dict) : list K := map fst d.
Definition items (d : dict) : list (K * V) := d.

(** [d[k]] as an expression. *)
Definition item (k : K) (d : dict) : result V :=
  match get k d with
  | Some v => Ok v
  | None => Raise KeyError
  end.
End Dict.
End Dict.

(** ** The shell fragment of the sweep scripts *)

Module Shell.

(** Arithmetic expansion [$(( ... ))]. *)
Inductive arith : Type :=
| ANum (z : Z)
| AVar (x : string)
| ASub (a b : arith).

(** A word is a concatenation of fragments; every expansion in the two
    scripts is double-quoted, so a word expands to exactly one string. *)
Inductive fragment : Type :=
| Lit (s : string)
| Var (x : string)
| Arith (a : arith)
| Subst (command : list string).

Definition word := list fragment.

Record simple_command : Type := {
  assignments : list (string * word);
  argv : list word;
  stdout_to : option word
}.

Inductive stmt : Type :=
| Assign (x : string) (w : word)
| For (x : string) (ws : list word) (body : list stmt)
| Run (c : simple_command)
| RunBg (c : simple_command)
| RunOrBreak (c : simple_command) (n : nat).

(** An expanded command, as handed to the operating system. *)
Record launch : Type := {
  launch_env : list (string * string);
  launch_argv : list string;
  launch_stdout : option string;
  launch_bg : bool
}.

(** What the script cannot decide: the exit status of a foreground command
    and the output of a command substitution. *)
Record world : Type := {
  exit_status : launch -> nat;
  command_output : list string -> string
}.

Definition env := list (string * string).

Fixpoint lookup (x : string) (e : env) : string :=
  match e with
  | [] => EmptyString
  | (y, v) :: e' => if String.eqb x y then v else lookup x e'
  end.

Definition assign (x v : string) (e : env) : env := (x, v) :: e.

Definition show (z : Z) : string := NilZero.string_of_int (Z.to_int z).

(** A value that is not a decimal numeral counts as 0 in arithmetic. *)
Definition read (s : string) : Z :=
  match NilZero.int_of_string s with
  | Some d => Z.of_int d
  | None => 0
  end.

Fixpoint arith_eval (e : env) (a : arith) : Z :=
  match a with
  | ANum z => z
  | AVar x => read (lookup x e)
  | ASub a b => arith_eval e a - arith_eval e b
  end.

Definition expand_fragment (w : world) (e : env) (f : fragment) : string :=
  match f with
  | Lit s => s
  | Var x => lookup x e
  | Arith a => show (arith_eval e a)
  | Subst c => command_output w c
  end.

Fixpoint expand (w : world) (e : env) (wd : word) : string :=
  match wd with
  | [] => EmptyString
  | f :: wd' => expand_fragment w e f ^^ expand w e wd'
  end.

Definition expand_command (w : world) (e : env) (bg : bool)
    (c : simple_command) : launch :=
  {| launch_env :=
       map (fun xa => (fst xa, expand w e (snd xa))) (assignments c);
     launch_argv := map (expand w e) (argv c);
     launch_stdout := option_map (expand w e) (stdout_to c);
     launch_bg := bg |}.

(** The interpreter state: the variables and the commands launched so far,
    oldest first. *)
Record state : Type := {
  vars : env;
  launched : list launch
}.

Definition record_launch (l : launch) (st : state) : state :=
  {| vars := vars st; launched := launched st ++ [l] |}.

(** [exec w depth s st] runs [s] inside [depth] enclosing loops. The second
    component counts the loops still to be left by a pending [break]:
    [break n] leaves [n] loops, or all of them when fewer enclose it. *)
Fixpoint exec (w : world) (depth : nat) (s : stmt) (st : state)
    : state * nat :=
  match s with
  | Assign x wd =>
      ({| vars := assign x (expand w (vars st) wd) (vars st);
          launched := launched st |}, 0%nat)
  | Run c =>
      (record_launch (expand_command w (vars st) false c) st, 0%nat)
  | RunBg c =>
      (record_launch (expand_command w (vars st) true c) st, 0%nat)
  | RunOrBreak c n =>
      let l := expand_command w (vars st) false c in
      let st' := record_launch l st in
      if Nat.eqb (exit_status w l) 0 then (st', 0%nat)
      else (st', Nat.min n depth)
  | For x ws body =>
      (fix loop (vs : list word) (st : state) : state * nat :=
         match vs with
         | [] => (st, 0%nat)
         | v :: vs' =>
             let st1 :=
               {| vars := assign x (expand w (vars st) v) (vars st);
                  launched := launched st |} in
             let '(st2, k) :=
               (fix seq (ss : list stmt) (st : state) : state * nat :=
                  match ss with
                  | [] => (st, 0%nat)
                  | s' :: ss' =>
                      let '(st', k) := exec w (S depth) s' st in
                      match k with
                      | O => seq ss' st'
                      | S _ => (st', k)
                      end
                  end) body st1 in
             match k with
             | O => loop vs' st2
             | S k' => (st2, k')
             end
         end) ws st
  end.

Fixpoint exec_seq (w : world) (ss : list stmt) (st : state) : state :=
  match ss with
  | [] => st
  | s :: ss' => exec_seq w ss' (fst (exec w 0 s st))
  end.

(** The commands a script launches, in order. *)
Definition run_script (w : world) (script : list stmt) : list launch :=
  launched (exec_seq w script {| vars := []; launched := [] |}).

(** *** sweep_scripts/tetris.sh *)

Definition tetris : list stmt :=
  [ Assign "branch" [Subst ["git"; "symbolic-ref"; "--short"; "HEAD"]];
    Assign "expname" [Lit "tetris_"; Var "branch"];
    For "model" [[Lit "nequip"]]
    [ For "l" [[Lit "1"]; [Lit "2"]; [Lit "3"]; [Lit "4"]; [Lit "5"]]
      [ For "c" [[Lit "64"]]
        [ For "i" [[Lit "2"]]
          [ RunBg
              {| assignments :=
                   [("CUDA_VISIBLE_DEVICES",
                     [Arith (ASub (AVar "l") (ANum 1))])];
                 argv :=
                   [ [Lit "python"]; [Lit "-m"]; [Lit "symphony"];
                     [Lit "--config=configs/tetris/"; Var "model"; Lit ".py"];
                     [Lit "--config.dataset="; Lit "tetris"];
                     [Lit "--config.max_n_graphs=16"];
                     [Lit "--config.max_ell="; Var "l"];
                     [Lit "--config.num_channels="; Var "c"];
                     [Lit "--config.num_interactions="; Var "i"];
                     [Lit "--config.num_train_steps=100000"];
                     [Lit "--workdir=workdirs/"; Var "expname"; Lit "/";
                      Var "model"; Lit "/interactions="; Var "i";
                      Lit "/l="; Var "l"; Lit "/channels="; Var "c";
                      Lit "/"] ];
                 stdout_to :=
                   Some [Var "expname"; Lit "_model="; Var "model";
                         Lit "_l="; Var "l"; Lit "_c="; Var "c";
                         Lit "_i="; Var "i"; Lit ".txt"] |} ] ] ] ] ]%string.

(** *** The learning-rates sweep script *)

Definition learning_rates_launch (config arch : string) : simple_command :=
  {| assignments := [("CUDA_VISIBLE_DEVICES", [Lit "6"])];
     argv :=
       [ [Lit "python"]; [Lit "-m"]; [Lit "symphony"];
         [Lit config];
         [Lit "--config.learning_rate_schedule="; Var "schedule"];
         [Lit "--config.max_ell="; Var "l"];
         [Lit "--config.num_channels="; Var "c"];
         [Lit "--config.num_interactions="; Var "i"];
         [Lit "--workdir=workdirs/"; Var "expname"; Lit "/";
          Var "schedule"; Lit arch; Lit "interactions="; Var "i";
          Lit "/l="; Var "l"; Lit "/channels="; Var "c"; Lit "/"] ];
     stdout_to := None |}%string.

Definition learning_rates : list stmt :=
  [ Assign "expname" [Lit "extras/learning_rates"];
    For "schedule" [[Lit "constant"]; [Lit "sgdr"]]
    [ For "l" [[Lit "2"]]
      [ For "c" [[Lit "32"]]
        [ For "i" [[Lit "4"]]
          [ RunOrBreak
              (learning_rates_launch "--config=configs/qm9/mace.py" "/mace/")
              10;
            RunOrBreak
              (learning_rates_launch "--config=configs/qm9/e3schnet.py"
                 "/e3schnet/")
              10 ] ] ] ] ]%string.

Definition sweep_scripts : list (list stmt) := [tetris; learning_rates].

(** *** Reading a launch *)

(** A run of the external training package: [python -m symphony ...]. *)
Definition is_training_run (l : launch) : bool :=
  match launch_argv l with
  | a :: b :: c :: _ =>
      String.eqb a "python" && String.eqb b "-m" && String.eqb c "symphony"
  | _ => false
  end.

Definition cuda_visible_devices (l : launch) : option string :=
  Dict.get String.eqb "CUDA_VISIBLE_DEVICES"%string (launch_env l).

(** The value of the first argument that starts with [p]. *)
Fixpoint flag (p : string) (args : list string) : option string :=
  match args with
  | [] => None
  | a :: args' =>
      if String.prefix p a
      then Some (String.substring (String.length p)
                   (String.length a - String.length p) a)
      else flag p args'
  end.

Definition max_ell (l : launch) : option string :=
  flag "--config.max_ell=" (launch_argv l).

(** *** Which flags a script sweeps *)

Definition is_training_command (c : simple_command) : bool :=
  match argv c with
  | [Lit a] :: [Lit b] :: [Lit d] :: _ =>
      String.eqb a "python" && String.eqb b "-m" && String.eqb d "symphony"
  | _ => false
  end.

(** The arguments [prefix"$x"] of [c] whose [x] is a loop variable in
    [scope], as pairs (prefix, x). *)
Definition flags_on (scope : list string) (c : simple_command)
    : list (string * string) :=
  flat_map
    (fun wd =>
       match wd with
       | [Lit p; Var x] =>
           if existsb (String.eqb x) scope then [(p, x)] else []
       | _ => []
       end)
    (argv c).

Definition swept_by_command (scope : list string) (c : simple_command)
    : list (string * string) :=
  if is_training_command c then flags_on scope c else [].

(** The flags of training runs that take their value from an enclosing
    [for] loop with at least one value. *)
Fixpoint swept (scope : list string) (s : stmt) : list (string * string) :=
  match s with
  | Assign _ _ => []
  | For x ws body =>
      match ws with
      | [] => []
      | _ :: _ =>
          (fix go (ss : list stmt) : list (string * string) :=
             match ss with
             | [] => []
             | s' :: ss' => swept (x :: scope) s' ++ go ss'
             end) body
      end
  | Run c => swept_by_command scope c
  | RunBg c => swept_by_command scope c
  | RunOrBreak c _ => swept_by_command scope c
  end.

Definition swept_flags (script : list stmt) : list string :=
  map fst (flat_map (swept []) script).

(** The hyperparameter grid of the specification. *)
Inductive hyperparameter : Type :=
| LearningRateSchedule
| ChannelCount
| InteractionCount
| SphericalHarmonicDegree
| InverseTemperature.

(** The flag of each hyperparameter. The scripts name the first four; the
    inverse temperatures appear in the repository only as the path
    components [fait=] and [pit=] of the temperature-ablation notebook, so
    any flag that mentions one of these names, or a temperature, counts. *)
Definition names (h : hyperparameter) (p : string) : bool :=
  match h with
  | LearningRateSchedule =>
      String.eqb p "--config.learning_rate_schedule="
  | ChannelCount => String.eqb p "--config.num_channels="
  | InteractionCount => String.eqb p "--config.num_interactions="
  | SphericalHarmonicDegree => String.eqb p "--config.max_ell="
  | InverseTemperature =>
      contains "temperature" p || contains "fait" p || contains "pit" p
  end.

Definition sweeps (script : list stmt) (h : hyperparameter) : bool :=
  existsb (names h) (swept_flags script).

(** The flags the two scripts pass from a loop variable. *)
Definition grid_flags : list string :=
  [ "--config.learning_rate_schedule="; "--config.num_channels=";
    "--config.num_interactions="; "--config.max_ell=" ]%string.

(** *** Failure of a launch *)

Definition all_succeed (w : world) : world :=
  {| exit_status := fun _ => 0%nat; command_output := command_output w |}.

Definition with_status (status : launch -> nat) (w : world) : world :=
  {| exit_status := status; command_output := command_output w |}.

(** The launches of [ls] up to and including the first one that fails. *)
Fixpoint up_to_first_failure (status : launch -> nat) (ls : list launch)
    : list launch :=
  match ls with
  | [] => []
  | l :: ls' =>
      if Nat.eqb (status l) 0 then l :: up_to_first_failure status ls'
      else [l]
  end.

(** The full grid of the learning-rates script: what it launches when
    every run succeeds. *)
Definition learning_rates_grid : list launch :=
  Eval vm_compute in
    run_script {| exit_status := fun _ => 0%nat;
                  command_output := fun _ => EmptyString |} learning_rates.

(** Two worlds for the learning-rates script: every run succeeds, every
    run fails. *)
Definition healthy : world :=
  {| exit_status := fun _ => 0%nat; command_output := fun _ => "main"%string |}.

Definition failing : world :=
  {| exit_status := fun _ => 1%nat; command_output := fun _ => "main"%string |}.

End Shell.


(** ** The [resolution_random_points] notebook *)

Module ResolutionRandomPoints.

(** The deterministic part of the libraries the notebook calls: JAX, optax,
    e3nn, and the [helpers], [symphony.models] and [symphony.loss] modules. *)
Class Libs : Type := {
  key : Type;                (* a JAX PRNG key *)
  irreps : Type;             (* e3nn.Irreps *)
  irreps_array : Type;       (* e3nn.IrrepsArray *)
  array : Type;              (* jax.Array *)
  spherical_signal : Type;   (* e3nn.SphericalSignal *)
  opt_state : Type;          (* optax.OptState *)
  scalar : Type;             (* a zero-dimensional jax.Array *)
  pyfloat : Type;            (* a Python float *)

  PRNGKey : Z -> key;
  fold_in : key -> Z -> key;
  s2_irreps : Z -> Z -> Z -> irreps;            (* lmax, p_val, p_arg *)
  adam_init : Q -> irreps_array -> opt_state;
  adam_update :
    Q -> irreps_array -> opt_state -> irreps_array -> irreps_array * opt_state;
  apply_updates : irreps_array -> irreps_array -> irreps_array;
  grad : (irreps_array -> scalar) -> irreps_array -> irreps_array;
  array_of : irreps_array -> array;             (* the [.array] attribute *)
  norm : array -> scalar;                       (* jnp.linalg.norm *)
  float_of : scalar -> pyfloat;                 (* float(...) *)
  average_target_distributions :
    irreps_array -> Z -> Z -> spherical_signal;
  coeffs_to_distribution : irreps_array -> Z -> Z -> spherical_signal;
  (* coeffs, res_beta, res_alpha, num_radii *)
  log_coeffs_to_logits : irreps_array -> Z -> Z -> Z -> spherical_signal;
  kl_divergence_on_spheres : spherical_signal -> spherical_signal -> scalar
}.

(** The calls that consume a PRNG key. *)
Class Random (L : Libs) : Type := {
  (* e3nn.normal(irreps, key, leading_shape) *)
  normal : irreps -> key -> Z * Z -> irreps_array;
  (* helpers.rmse_of_samples(dist, points, rng, num_samples) *)
  rmse_of_samples : spherical_signal -> array -> key -> Z -> scalar * scalar
}.

(** One value of [training_dict]. *)
Record entry {L : Libs} : Type := {
  entry_coeffs : array;
  entry_loss_value : pyfloat;
  entry_grad_norms : pyfloat;
  entry_mean_dist : pyfloat;
  entry_std_dist : pyfloat
}.

(** The variables the training loop assigns. *)
Record loop_state {L : Libs} : Type := {
  ls_coeffs : irreps_array;
  ls_opt_state : opt_state;
  ls_printed : list (Z * scalar);
  training_dict : Dict.dict (K := Z) (V := entry)
}.

Section OptimizeCoeffs.
Context {L : Libs} {R : Random L}.

(** The notebook's global [random_points], read by [optimize_coeffs]. *)
Variable random_points : array.

Variable true_signal : irreps_array.
Variables lmax position_channels res_alpha res_beta : Z.

Definition learning_rate : Q := 1 # 1000.

(** jax.value_and_grad *)
Definition value_and_grad (f : irreps_array -> scalar) (x : irreps_array)
    : scalar * irreps_array :=
  (f x, grad f x).

Definition true_dist : spherical_signal :=
  average_target_distributions true_signal res_alpha res_beta.

Definition rng : key := PRNGKey 0.

Definition initial_coeffs : irreps_array :=
  normal (s2_irreps lmax 1 (-1)) rng (position_channels, 1).

Definition loss_fn (coeffs : irreps_array) : scalar :=
  let log_predicted_dist := log_coeffs_to_logits coeffs res_beta res_alpha 1 in
  kl_divergence_on_spheres true_dist log_predicted_dist.

Definition train_step (coeffs : irreps_array) (st : opt_state)
    : irreps_array * opt_state * scalar * scalar :=
  let '(loss_value, grads) := value_and_grad loss_fn coeffs in
  let grad_norms := norm (array_of grads) in
  let '(updates, st) := adam_update learning_rate grads st coeffs in
  let coeffs := apply_updates coeffs updates in
  (coeffs, st, loss_value, grad_norms).

(** The body of [for step in range(num_training_steps)]. *)
Definition loop_body (s : loop_state) (step : Z) : loop_state :=
  let '(coeffs, st, loss_value, grad_norms) :=
    train_step (ls_coeffs s) (ls_opt_state s) in
  let printed :=
    if step mod 5000 =? 0 then ls_printed s ++ [(step, loss_value)]
    else ls_printed s in
  let d :=
    if step mod 10 =? 0 then
      let step_rng := fold_in rng step in
      let dist := coeffs_to_distribution coeffs res_alpha res_beta in
      let '(mean_dist, std_dist) :=
        rmse_of_samples dist random_points step_rng 1000 in
      Dict.set Z.eqb step
        {| entry_coeffs := array_of coeffs;
           entry_loss_value := float_of loss_value;
           entry_grad_norms := float_of grad_norms;
           entry_mean_dist := float_of mean_dist;
           entry_std_dist := float_of std_dist |}
        (training_dict s)
    else training_dict s in
  {| ls_coeffs := coeffs; ls_opt_state := st;
     ls_printed := printed; training_dict := d |}.

Definition initial_state : loop_state :=
  {| ls_coeffs := initial_coeffs;
     ls_opt_state := adam_init learning_rate initial_coeffs;
     ls_printed := [];
     training_dict := [] |}.

Definition training_loop (num_training_steps : Z) : loop_state :=
  fold_left loop_body (range num_training_steps) initial_state.

Definition optimize_coeffs (num_training_steps : Z)
    : Dict.dict (K := Z) (V := entry) :=
  training_dict (training_loop num_training_steps).

(** The parameters and optimizer state after [k] Adam steps on
    [loss_fn], by recursion on [k]. *)
Fixpoint adam_iterates (k : nat) : irreps_array * opt_state :=
  match k with
  | O => (initial_coeffs, adam_init learning_rate initial_coeffs)
  | S k' =>
      let '(coeffs, st) := adam_iterates k' in
      let '(updates, st') :=
        adam_update learning_rate (grad loss_fn coeffs) st coeffs in
      (apply_updates coeffs updates, st')
  end.

(** What the periodic evaluation records after step [step], given the
    parameters before ([before]) and after ([after]) that step. *)
Definition evaluation (step : Z) (before after : irreps_array) : entry :=
  let dists :=
    rmse_of_samples (coeffs_to_distribution after res_alpha res_beta)
      random_points (fold_in (PRNGKey 0) step) 1000 in
  {| entry_coeffs := array_of after;
     entry_loss_value := float_of (loss_fn before);
     entry_grad_norms := float_of (norm (array_of (grad loss_fn before)));
     entry_mean_dist := float_of (fst dists);
     entry_std_dist := float_of (snd dists) |}.

(** The entry of step [s]: the evaluation between the [s]-th and the
    [s+1]-st iterate. *)
Definition recorded (s : Z) : entry :=
  evaluation s (fst (adam_iterates (Z.to_nat s)))
    (fst (adam_iterates (S (Z.to_nat s)))).
End OptimizeCoeffs.

Definition every_10 (s : Z) : bool := s mod 10 =? 0.

(** *** The grid cell *)

Definition res_alphas : list Z := [9; 179; 359; 719].
Definition res_betas : list Z := [10; 180; 360].

Record results_row {L : Libs} : Type := {
  row_res_alpha : Z;
  row_res_beta : Z;
  row_lmax : Z;
  row_position_channels : Z;
  row_steps : list Z;
  row_loss : list pyfloat;
  row_grad_norms : list pyfloat;
  row_coeffs : array;
  row_mean_dist : list pyfloat;
  row_std_dist : list pyfloat
}.

(** [list(...)[0]] and [list(...)[-1]] *)
Definition first {A : Type} (l : list A) : result A :=
  match l with
  | [] => Raise IndexError
  | a :: _ => Ok a
  end.

Definition last_item {A : Type} (l : list A) : result A :=
  first (rev l).

Definition assert (b : bool) : result unit :=
  if b then Ok tt else Raise AssertionError.

Section Grid.
Context {L : Libs} {R : Random L}.
Variable random_points : array.
Variable random_signal : irreps_array.

(** [[training_dict[step][field] for step in training_dict.keys()]] *)
Definition column {A : Type} (field : entry -> A)
    (d : Dict.dict (K := Z) (V := entry)) : result (list A) :=
  traverse (fun step => e <- Dict.item Z.eqb step d ;; Ok (field e))
    (Dict.keys d).

(** The body of the innermost loop: one row of [results_df]. *)
Definition grid_point (res_alpha res_beta lmax position_channels : Z)
    : result results_row :=
  let training_dict :=
    optimize_coeffs random_points random_signal lmax position_channels
      res_alpha res_beta 10000 in
  first_step <- first (Dict.keys training_dict) ;;
  last_step <- last_item (Dict.keys training_dict) ;;
  _ <- assert (first_step =? 0) ;;
  loss <- column entry_loss_value training_dict ;;
  grad_norms <- column entry_grad_norms training_dict ;;
  last_entry <- Dict.item Z.eqb last_step training_dict ;;
  mean_dist <- column entry_mean_dist training_dict ;;
  std_dist <- column entry_std_dist training_dict ;;
  Ok {| row_res_alpha := res_alpha;
        row_res_beta := res_beta;
        row_lmax := lmax;
        row_position_channels := position_channels;
        row_steps := Dict.keys training_dict;
        row_loss := loss;
        row_grad_norms := grad_norms;
        row_coeffs := entry_coeffs last_entry;
        row_mean_dist := mean_dist;
        row_std_dist := std_dist |}.

(** The four nested loops, appending to [results_df]. *)
Definition grid_cell : result (list results_row) :=
  traverse
    (fun '(res_alpha, res_beta, lmax, position_channels) =>
       grid_point res_alpha res_beta lmax position_channels)
    (flat_map
       (fun res_alpha =>
          flat_map
            (fun res_beta =>
               flat_map
                 (fun lmax =>
                    map (fun position_channels =>
                           (res_alpha, res_beta, lmax, position_channels))
                      [2])
                 [5])
            res_betas)
       res_alphas).
End Grid.

(** *** A small instance of the libraries

    Integers for every carrier, with a finite difference for the gradient
    and a sign step for the optimizer; enough to run the notebook's code. *)

Definition small_libs : Libs :=
  {| key := Z; irreps := Z; irreps_array := Z; array := Z;
     spherical_signal := Z; opt_state := Z; scalar := Z; pyfloat := Z;
     PRNGKey := fun seed => seed;
     fold_in := fun k data => 2 * (k + data) + 1;
     s2_irreps := fun lmax _ _ => lmax;
     adam_init := fun _ _ => 0;
     adam_update := fun _ g st _ => (- Z.sgn g, st + 1);
     apply_updates := fun p u => p + u;
     grad := fun f x => f (x + 1) - f x;
     array_of := fun x => x;
     norm := Z.abs;
     float_of := fun x => x;
     average_target_distributions := fun sig a b => sig + a * b;
     coeffs_to_distribution := fun c _ _ => c;
     log_coeffs_to_logits := fun c _ _ _ => c;
     kl_divergence_on_spheres := fun p q => (p - q) * (p - q) |}.

Definition small_normal (irr k : Z) (shape : Z * Z) : Z :=
  irr + k + fst shape.

Definition small_rmse (dist pts k num_samples : Z) : Z * Z :=
  (Z.abs (dist - pts), k).

Definition small_random : Random small_libs :=
  @Build_Random small_libs small_normal small_rmse.

(** A second sampler: it agrees with [small_random] on the key 0 and on
    the odd keys, which are the keys [fold_in] produces, and nowhere else. *)
Definition other_normal (irr k : Z) (shape : Z * Z) : Z :=
  if k =? 0 then small_normal irr k shape else 42.

Definition other_rmse (dist pts k num_samples : Z) : Z * Z :=
  if Z.odd k then small_rmse dist pts k num_samples else (0, 0).

Definition other_random : Random small_libs :=
  @Build_Random small_libs other_normal other_rmse.

End ResolutionRandomPoints.

(** ** The metrics notebooks: libraries and data frames *)

Module Metrics.

(** What the two metrics notebooks import: the file system, the functions
    of [analyses.metrics], and the floating-point operations of Python,
    NumPy and pandas. A library function may raise. *)
Class Libs : Type := {
  molecule : Type;
  number : Type;                        (* a Python or NumPy float *)

  path_exists : string -> bool;         (* os.path.exists *)
  get_all_molecules : string -> result (list molecule);
  get_all_valid_molecules : list molecule -> result (list molecule);
  get_all_molecules_with_openbabel : string -> result (list molecule);
  get_all_valid_molecules_with_openbabel :
    list molecule -> result (list molecule);
  compute_validity : list molecule -> list molecule -> result number;
  compute_uniqueness : list molecule -> result number;
  compute_uniqueness_with_openbabel : list molecule -> result number;

  of_Z : Z -> number;                   (* an int where a float is due *)
  fmul : number -> number -> number;
  fdiv : number -> number -> number;
  log10 : number -> number;             (* np.log10 *)
  round_ : Z -> number -> number;       (* DataFrame.round(decimals) *)
  format_f : Z -> number -> string;     (* f"{x:.<precision>f}" *)
  parse_float : string -> result number (* astype(float) of a string *)
}.

(** A dictionary comprehension [{k: f(v) for k, v in d.items()}]; the keys
    of [d] are distinct, so the items keep their order. *)
Definition comprehension {K A B : Type} (f : A -> result B)
    (d : Dict.dict (K := K) (V := A)) : result (Dict.dict (K := K) (V := B)) :=
  traverse (fun kv => b <- f (snd kv) ;; Ok (fst kv, b)) (Dict.items d).

Fixpoint string_repeat (s : string) (n : nat) : string :=
  match n with
  | O => EmptyString
  | S n' => s ^^ string_repeat s n'
  end.

Section Frames.
Context {M : Libs}.

(** A cell or a label of a data frame. *)
Inductive value : Type :=
| VInt (z : Z)
| VStr (s : string)
| VNum (x : number).

(** A data frame, row by row. *)
Record frame : Type := {
  index : list value;
  columns : list value;
  data : list (list value)
}.

(** [pd.DataFrame(columns=...)] *)
Definition empty_frame (cols : list string) : frame :=
  {| index := []; columns := map VStr cols; data := [] |}.

(** [pd.concat([df, one_row], ignore_index=True)], the row having the
    columns of [df]. *)
Definition concat_row (df : frame) (row : list value) : frame :=
  {| index := map VInt (range (Z.of_nat (List.length (data df)) + 1));
     columns := columns df;
     data := data df ++ [row] |}.

Definition nth_column (j : nat) (rows : list (list value)) : list value :=
  flat_map (fun row => match nth_error row j with
                       | Some v => [v]
                       | None => []
                       end) rows.

Definition transpose (df : frame) : frame :=
  {| index := columns df;
     columns := index df;
     data := map (fun j => nth_column j (data df))
               (seq 0 (List.length (columns df))) |}.

(** [df.iloc[0]] *)
Definition iloc0 (df : frame) : result (list value) := 
  match data df with
  | [] => Raise IndexError
  | row :: _ => Ok row
  end.

(** [df.columns = labels] *)
Definition set_columns (labels : list value) (df : frame) : result frame :=
  if Nat.eqb (List.length labels) (List.length (columns df))
  then Ok {| index := index df; columns := labels; data := data df |}
  else Raise ValueError.

(** [df.index = labels] *)
Definition set_index (labels : list value) (df : frame) : result frame :=
  if Nat.eqb (List.length labels) (List.length (index df))
  then Ok {| index := labels; columns := columns df; data := data df |}
  else Raise ValueError.

(** [v * c] for a Python int [c]: a string is repeated. *)
Definition value_mul (c : Z) (v : value) : value :=
  match v with
  | VInt z => VInt (z * c)
  | VStr s => VStr (string_repeat s (Z.to_nat c))
  | VNum x => VNum (fmul x (of_Z c))
  end.

(** [df *= c] *)
Definition imul (c : Z) (df : frame) : frame :=
  {| index := index df;
     columns := columns df;
     data := map (map (value_mul c)) (data df) |}.

Definition is_label (name : string) (v : value) : bool :=
  match v with
  | VStr s => String.eqb s name
  | _ => false
  end.

(** [df.drop(name)]: the rows labelled [name] go; [KeyError] when there
    is none. *)
Definition drop (name : string) (df : frame) : result frame :=
  if existsb (is_label name) (index df)
  then
    let kept :=
      filter (fun lr => negb (is_label name (fst lr)))
        (combine (index df) (data df)) in
    Ok {| index := map fst kept;
          columns := columns df;
          data := map snd kept |}
  else Raise KeyError.

Definition traverse_cells (f : value -> result value) (df : frame)
    : result frame :=
  rows <- traverse (traverse f) (data df) ;;
  Ok {| index := index df; columns := columns df; data := rows |}.

(** [df.astype(float)] *)
Definition to_float (v : value) : result value :=
  match v with
  | VInt z => Ok (VNum (of_Z z))
  | VStr s => x <- parse_float s ;; Ok (VNum x)
  | VNum x => Ok (VNum x)
  end.

Definition astype_float : frame -> result frame := traverse_cells to_float.

(** [df.round(decimals)] of a frame of floats *)
Definition round_value (decimals : Z) (v : value) : value :=
  match v with
  | VNum x => VNum (round_ decimals x)
  | _ => v
  end.

Definition round_frame (decimals : Z) (df : frame) : frame :=
  {| index := index df;
     columns := columns df;
     data := map (map (round_value decimals)) (data df) |}.

(** [df.applymap(lambda x: f"{x:.2f}")] *)
Definition format_2f (v : value) : result value :=
  match v with
  | VInt z => Ok (VStr (format_f 2 (of_Z z)))
  | VStr _ => Raise ValueError
  | VNum x => Ok (VStr (format_f 2 x))
  end.

Definition applymap_format_2f : frame -> result frame :=
  traverse_cells format_2f.

(** The cell of [df] in the row labelled [row] and the column labelled
    [col]. *)
Fixpoint position (name : string) (labels : list value) : option nat :=
  match labels with
  | [] => None
  | v :: labels' =>
      if is_label name v then Some O
      else option_map S (position name labels')
  end.

Definition cell (df : frame) (row col : string) : option value :=
  match position row (index df), position col (columns df) with
  | Some i, Some j =>
      match nth_error (data df) i with
      | Some r => nth_error r j
      | None => None
      end
  | _, _ => None
  end.
End Frames.

(** *** A small instance of the libraries

    Molecules are integers, the positive ones valid; numbers are integers,
    the two metrics percentages that raise on an empty list. Directories
    with [pit=100.0] do not exist and those with [fait=0.01] hold no valid
    molecule. *)

Definition small_load (path : string) : result (list Z) :=
  if contains "fait=0.01" path then Ok [-1; -2] else Ok [1; 2; -3; 2].

Definition small_valid (molecules : list Z) : result (list Z) :=
  Ok (filter (fun m => 0 <? m) molecules).

(** The share of [part] in [whole], in hundredths. *)
Definition percent (part whole : list Z) : result Z :=
  match whole with
  | [] => Raise LibraryError
  | _ :: _ =>
      Ok (100 * Z.of_nat (List.length part) / Z.of_nat (List.length whole))
  end.

(** Numbers of the small instance count hundredths. *)
Definition small_parse (s : string) : result Z :=
  match String.index 0 "." s with
  | None => Raise ValueError
  | Some i =>
      let whole := Shell.read (String.substring 0 i s) in
      let digits := String.substring (S i) 2 s in
      let hundredths :=
        if Nat.eqb (String.length digits) 1 then 10 * Shell.read digits
        else Shell.read digits in
      Ok (100 * whole + hundredths)
  end.

Definition small_format (precision x : Z) : string :=
  (Shell.show (x / 100) ^^ "."
   ^^ Shell.show (x mod 100 / 10) ^^ Shell.show (x mod 10))%string.

Definition small_libs : Libs :=
  {| molecule := Z;
     number := Z;
     path_exists := fun path => negb (contains "pit=100.0" path);
     get_all_molecules := small_load;
     get_all_valid_molecules := small_valid;
     get_all_molecules_with_openbabel := small_load;
     get_all_valid_molecules_with_openbabel := small_valid;
     compute_validity := fun all valid => percent valid all;
     compute_uniqueness := fun valid => percent (nodup Z.eq_dec valid) valid;
     compute_uniqueness_with_openbabel :=
       fun valid => percent (nodup Z.eq_dec valid) valid;
     of_Z := fun z => 100 * z;
     fmul := fun x y => x * y / 100;
     fdiv := fun x y => 100 * x / y;
     log10 := fun x => 100 * (Z.log2 (x / 100) * 3 / 10);
     round_ := fun _ x => x;
     format_f := small_format;
     parse_float := small_parse |}.

End Metrics.

(** ** The temperature-ablation notebook *)

Module TemperatureAblation.
Import Metrics.

Definition temperatures : list string :=
  ["0.01"; "0.1"; "1.0"; "10.0"; "100.0"]%string.

(** [template.format(pit=pit, fait=fait)] *)
Definition template (pit fait : string) : string :=
  ("/Users/ameyad/Documents/spherical-harmonic-net/analyses/analysed_workdirs/qm9_bessel_embedding_attempt6_edm_splits_iclr2024_submission/e3schnet_and_nequip/interactions=3/l=5/position_channels=2/channels=64/fait="
   ^^ fait ^^ "/pit=" ^^ pit
   ^^ "/step=9930000_res_alpha=359_res_beta=180/molecules")%string.

(** A model of this notebook: the pair [(pit, fait)]. *)
Definition setting : Type := string * string.

Definition setting_eqb (a b : setting) : bool :=
  String.eqb (fst a) (fst b) && String.eqb (snd a) (snd b).

Definition path_of (s : setting) : string := template (fst s) (snd s).

(** One row of [all_results_df]. *)
Record results_row {M : Libs} : Type := {
  pit : string;
  fait : string;
  validity : number;
  uniqueness : number
}.

(** One point of a scatter plot. *)
Record plot_row {M : Libs} : Type := {
  plot_inverse_temperature : number;
  plot_temperature : number;
  plot_log_temperature : number;
  plot_validity : number;
  plot_uniqueness : number
}.

Section Notebook.
Context {M : Libs}.

Definition generated_paths : Dict.dict (K := setting) (V := string) :=
  fold_left
    (fun d pit =>
       fold_left
         (fun d fait =>
            let path := template pit fait in
            if negb (path_exists path) then d
            else Dict.set setting_eqb (pit, fait) path d)
         temperatures d)
    temperatures [].

Definition all_generated_molecules
    : result (Dict.dict (K := setting) (V := list molecule)) :=
  comprehension get_all_molecules generated_paths.

Definition valid_molecules
    (all_generated_molecules : Dict.dict (K := setting) (V := list molecule))
    : result (Dict.dict (K := setting) (V := list molecule)) :=
  comprehension get_all_valid_molecules all_generated_molecules.

(** The loop that fills [all_results_df], from the items still to visit
    and the rows so far. *)
Fixpoint results_loop
    (all_generated_molecules : Dict.dict (K := setting) (V := list molecule))
    (items : list (setting * list molecule)) (df : list results_row)
    : result (list results_row) :=
  match items with
  | [] => Ok df
  | (model, molecules) :: items' =>
      if Nat.eqb (List.length molecules) 0
      then results_loop all_generated_molecules items' df
      else
        generated <- Dict.item setting_eqb model all_generated_molecules ;;
        validity_fraction <- compute_validity generated molecules ;;
        uniqueness_fraction <- compute_uniqueness molecules ;;
        let '(pit, fait) := model in
        results_loop all_generated_molecules items'
          (df ++ [{| pit := pit; fait := fait;
                     validity := validity_fraction;
                     uniqueness := uniqueness_fraction |}])
  end.

Definition all_results_df : result (list results_row) :=
  generated <- all_generated_molecules ;;
  valid <- valid_molecules generated ;;
  results_loop generated (Dict.items valid) [].

(** The frame handed to [sns.scatterplot]: the rows selected by [keep],
    with the inverse temperature read from [swept]. [all_results_df] is
    created with the columns [pit], [fait] and [validity] and gets its
    [uniqueness] column with the first concatenated row: on a frame
    without a row, [results_df["uniqueness"]] raises [KeyError]. *)
Definition scatter_data (keep swept : results_row -> string)
    (all_results_df : list results_row) : result (list plot_row) :=
  match all_results_df with
  | [] => Raise KeyError
  | _ :: _ =>
      traverse
        (fun r =>
           inverse <- parse_float (swept r) ;;
           let temperature := fdiv (of_Z 1) inverse in
           Ok {| plot_inverse_temperature := inverse;
                 plot_temperature := temperature;
                 plot_log_temperature := log10 temperature;
                 plot_validity := fmul (validity r) (of_Z 100);
                 plot_uniqueness := fmul (uniqueness r) (of_Z 100) |})
        (filter (fun r => String.eqb (keep r) "1.0") all_results_df)
  end.

(** The position-temperature plot: [fait == "1.0"], [pit] swept. *)
Definition position_temperature_plot := scatter_data fait pit.

(** The focus-temperature plot: [pit == "1.0"], [fait] swept. *)
Definition focus_temperature_plot := scatter_data pit fait.

(** *** The settings that give a row *)

Definition grid : list setting :=
  flat_map (fun pit => map (fun fait => (pit, fait)) temperatures)
    temperatures.

Definition loaded (s : setting) : list molecule :=
  match get_all_molecules (path_of s) with
  | Ok ms => ms
  | Raise _ => []
  end.

Definition valid_of (s : setting) : list molecule :=
  match get_all_valid_molecules (loaded s) with
  | Ok ms => ms
  | Raise _ => []
  end.

(** The directory of [s] exists and holds a valid molecule. *)
Definition kept (s : setting) : bool :=
  path_exists (path_of s) && negb (Nat.eqb (List.length (valid_of s)) 0).

Definition exists_ (s : setting) : bool := path_exists (path_of s).
Definition existing : list setting := filter exists_ grid.
Definition has_valid (s : setting) : bool :=
  negb (Nat.eqb (List.length (valid_of s)) 0).

(** The setting of a row. *)
Definition key (r : results_row) : setting := (pit r, fait r).

(** The metrics of a row are those the library returned for its
    setting. *)
Definition measured (r : results_row) : Prop :=
  compute_validity (loaded (key r)) (valid_of (key r)) = Ok (validity r)
  /\ compute_uniqueness (valid_of (key r)) = Ok (uniqueness r).
End Notebook.

End TemperatureAblation.

(** ** The OpenBabel metrics notebook *)

Module OpenBabel.
Import Metrics.

Definition generated_paths : Dict.dict (K := string) (V := string) :=
  [ ("QM9", "/Users/ameyad/Documents/spherical-harmonic-net/others/qm9_xyz");
    ("Symphony",
     "/Users/ameyad/Documents/spherical-harmonic-net/analyses/analysed_workdirs/qm9_bessel_embedding_attempt6_edm_splits/e3schnet_and_nequip/interactions=3/l=5/position_channels=2/channels=64/fait=1.0/pit=1.0/step=7530000/molecules");
    ("EDM",
     "/Users/ameyad/Documents/spherical-harmonic-net/others/edm-resampled/samples_edm_xyz");
    ("GSchNet",
     "/Users/ameyad/Documents/spherical-harmonic-net/others/gschnet-edm-retrained/molecules");
    ("GSphereNet",
     "/Users/ameyad/Documents/spherical-harmonic-net/others/gspherenet/molecules")
  ]%string.

Definition models : list string := Dict.keys generated_paths.

Section Notebook.
Context {M : Libs}.

Definition all_generated_molecules_openbabel
    : result (Dict.dict (K := string) (V := list molecule)) :=
  comprehension get_all_molecules_with_openbabel generated_paths.

Definition valid_molecules_openbabel
    (generated : Dict.dict (K := string) (V := list molecule))
    : result (Dict.dict (K := string) (V := list molecule)) :=
  comprehension get_all_valid_molecules_with_openbabel generated.

(** The loop that fills a two-column frame with one metric per model. *)
Fixpoint metric_loop
    (metric : string -> list molecule -> result number)
    (items : list (string * list molecule)) (df : frame) : result frame :=
  match items with
  | [] => Ok df
  | (model, molecules) :: items' =>
      fraction <- metric model molecules ;;
      metric_loop metric items' (concat_row df [VStr model; VNum fraction])
  end.

Definition validity_openbabel_df
    (generated valid : Dict.dict (K := string) (V := list molecule))
    : result frame :=
  metric_loop
    (fun model molecules =>
       all <- Dict.item String.eqb model generated ;;
       compute_validity all molecules)
    (Dict.items valid) (empty_frame ["model"; "validity"]%string).

Definition uniqueness_openbabel_df
    (valid : Dict.dict (K := string) (V := list molecule)) : result frame :=
  metric_loop
    (fun _ molecules => compute_uniqueness_with_openbabel molecules)
    (Dict.items valid) (empty_frame ["model"; "uniqueness"]%string).

(** The frame the validity cell prints with [style.to_latex()]. *)
Definition formatted_validity_df (validity_openbabel_df : frame)
    : result frame :=
  let df := transpose validity_openbabel_df in
  labels <- iloc0 df ;;
  df <- set_columns labels df ;;
  let df := imul 100 df in
  df <- drop "model" df ;;
  df <- set_index [VStr "Validity via OpenBabel"] df ;;
  df <- astype_float df ;;
  applymap_format_2f df.

(** The frame the uniqueness cell prints with [style.to_latex()]. *)
Definition formatted_uniqueness_df (uniqueness_openbabel_df : frame)
    : result frame :=
  let df := transpose uniqueness_openbabel_df in
  labels <- iloc0 df ;;
  df <- set_columns labels df ;;
  let df := imul 100 df in
  df <- drop "model" df ;;
  df <- astype_float df ;;
  df <- set_index [VStr "Uniqueness via OpenBabel"] df ;;
  let df := round_frame 2 df in
  applymap_format_2f df.

(** The two tables of the notebook, cell after cell. *)
Definition validity_table : result frame :=
  generated <- all_generated_molecules_openbabel ;;
  valid <- valid_molecules_openbabel generated ;;
  df <- validity_openbabel_df generated valid ;;
  formatted_validity_df df.

Definition uniqueness_table : result frame :=
  generated <- all_generated_molecules_openbabel ;;
  valid <- valid_molecules_openbabel generated ;;
  df <- uniqueness_openbabel_df valid ;;
  formatted_uniqueness_df df.
End Notebook.

End OpenBabel.

(** ** Python strings *)

Module Py.

(** [s.replace(old, new)] for a one-character [old]. *)
Fixpoint replace (old : ascii) (new s : string) : string :=
  match s with
  | EmptyString => EmptyString
  | String c s' =>
      if Ascii.eqb c old then new ^^ replace old new s'
      else String c (replace old new s')
  end.

(** [s.split(sep)] for a one-character [sep]: never empty. *)
Fixpoint split (sep : ascii) (s : string) : list string :=
  match s with
  | EmptyString => [EmptyString]
  | String c s' =>
      if Ascii.eqb c sep then EmptyString :: split sep s'
      else match split sep s' with
           | [] => [String c EmptyString]
           | w :: ws => String c w :: ws
           end
  end.

(** [s.rstrip(c)] for a one-character [c]. *)
Fixpoint rstrip (c : ascii) (s : string) : string :=
  match s with
  | EmptyString => EmptyString
  | String a s' =>
      match rstrip c s' with
      | EmptyString =>
          if Ascii.eqb a c then EmptyString else String a EmptyString
      | r => String a r
      end
  end.

Fixpoint lstrip (c : ascii) (s : string) : string :=
  match s with
  | EmptyString => EmptyString
  | String a s' => if Ascii.eqb a c then lstrip c s' else s
  end.

(** [int(s)] on a decimal numeral with an optional minus sign and blanks
    around it; [ValueError] on anything else. (Python also reads a plus
    sign, digit-group underscores and other white space.) *)
Definition int (s : string) : result Z :=
  match NilZero.int_of_string (rstrip " " (lstrip " " s)) with
  | Some d => Ok (Z.of_int d)
  | None => Raise ValueError
  end.

(** [c in s] for a character [c]. *)
Fixpoint occurs (c : ascii) (s : string) : bool :=
  match s with
  | EmptyString => false
  | String a s' => Ascii.eqb a c || occurs c s'
  end.

(** [l[i]] *)
Definition index {A : Type} (l : list A) (i : nat) : result A :=
  match nth_error l i with
  | Some a => Ok a
  | None => Raise IndexError
  end.

(** [str(z)] and [f"{z}"] of an int. *)
Definition str (z : Z) : string := NilZero.string_of_int (Z.to_int z).

(** Stable insertion of [(k, a)] among pairs sorted by key: after the pairs
    with a key at most [k]. *)
Fixpoint insert {A : Type} (k : Z) (a : A) (l : list (Z * A))
    : list (Z * A) :=
  match l with
  | [] => [(k, a)]
  | (k', a') :: l' =>
      if k' <=? k then (k', a') :: insert k a l' else (k, a) :: l
  end.

(** [sorted(l, key=key)]: every key is computed first, then the items are
    sorted by key, items of equal key keeping their order. *)
Definition sorted {A : Type} (key : A -> result Z) (l : list A)
    : result (list A) :=
  keyed <- traverse (fun a => k <- key a ;; Ok (k, a)) l ;;
  Ok (map snd (fold_left (fun acc ka => insert (fst ka) (snd ka) acc)
                 keyed [])).

(** The order [sorted] puts keyed items in. *)
Definition by_key {A : Type} (p q : Z * A) : Prop := fst p <= fst q.

(** The characters [str] writes an int with. *)
Definition digit_or_minus (c : ascii) : bool := occurs c "0123456789-".

End Py.

(** ** The plots of the [resolution_random_points] notebook *)

Module ResolutionPlots.
Import ResolutionRandomPoints.

Definition allowed_res_alphas_and_betas : list (Z * Z) :=
  [(9, 10); (9, 180); (179, 180); (359, 180); (719, 360)].

(** The legend label of a curve. *)
Definition label_of (res_alpha res_beta : Z) : string :=
  ("$(r_\theta, r_\phi) = (" ^^ Py.str res_beta ^^ "," ^^ Py.str res_alpha
   ^^ ")$")%string.

Definition extract_resolution_from_label {H : Type} (args : string * H)
    : result Z :=
  let '(label, handle) := args in
  let label := Py.replace "$" "" label in
  let label := Py.replace "(" "" label in
  let label := Py.replace ")" "" label in
  label <- Py.index (Py.split "=" label) 1 ;;
  let label := Py.split "," label in
  res_alpha <- (x <- Py.index label 0 ;; Py.int x) ;;
  res_beta <- (x <- Py.index label 1 ;; Py.int x) ;;
  Ok (res_alpha * res_beta).

(** One line of each of the three axes: they share label and steps. *)
Record curve {L : Libs} : Type := {
  curve_label : string;
  curve_steps : list Z;
  curve_loss : list pyfloat;
  curve_grad_norms : list pyfloat;
  curve_mean_dist : list pyfloat
}.

Section Plots.
Context {L : Libs}.

(** [(res_alpha, res_beta) in allowed_res_alphas_and_betas] *)
Definition allowed (res_alpha res_beta : Z) : bool :=
  existsb (fun p => (fst p =? res_alpha) && (snd p =? res_beta))
    allowed_res_alphas_and_betas.

(** The body of the plotting loop for an allowed pair: the first row of
    the subset of [results_df] with these resolutions. *)
Definition curve_of (results_df : list results_row) (res_alpha res_beta : Z)
    : result curve :=
  let subset_df :=
    filter (fun r => (row_res_alpha r =? res_alpha)
                     && (row_res_beta r =? res_beta)) results_df in
  steps <- Py.index (map row_steps subset_df) 0 ;;
  loss <- Py.index (map row_loss subset_df) 0 ;;
  grad_norms <- Py.index (map row_grad_norms subset_df) 0 ;;
  mean_dist <- Py.index (map row_mean_dist subset_df) 0 ;;
  Ok {| curve_label := label_of res_alpha res_beta;
        curve_steps := steps;
        curve_loss := loss;
        curve_grad_norms := grad_norms;
        curve_mean_dist := mean_dist |}.

(** The two plotting loops, skipping the pairs that are not allowed. *)
Definition plot_curves (results_df : list results_row)
    : result (list curve) :=
  traverse (fun p => curve_of results_df (fst p) (snd p))
    (filter (fun p => allowed (fst p) (snd p))
       (flat_map (fun res_alpha =>
                    map (fun res_beta => (res_alpha, res_beta)) res_betas)
          res_alphas)).

(** The legend: the labels and lines of the first axis, sorted by
    resolution. *)
Definition legend (curves : list curve) : result (list (string * curve)) :=
  Py.sorted extract_resolution_from_label
    (map (fun c => (curve_label c, c)) curves).
End Plots.

(** The row of [results_df] for a grid point, from the entries that 10000
    training steps record. *)
Definition recorded_row {L : Libs} {R : Random L} (random_points : array)
    (random_signal : irreps_array)
    (res_alpha res_beta lmax position_channels : Z) : results_row :=
  let steps := map (Z.mul 10) (range 1000) in
  let entry_at :=
    recorded random_points random_signal lmax position_channels
      res_alpha res_beta in
  {| row_res_alpha := res_alpha;
     row_res_beta := res_beta;
     row_lmax := lmax;
     row_position_channels := position_channels;
     row_steps := steps;
     row_loss := map (fun s => entry_loss_value (entry_at s)) steps;
     row_grad_norms := map (fun s => entry_grad_norms (entry_at s)) steps;
     row_coeffs := entry_coeffs (entry_at 9990);
     row_mean_dist := map (fun s => entry_mean_dist (entry_at s)) steps;
     row_std_dist := map (fun s => entry_std_dist (entry_at s)) steps |}.

(** Two curves of the small instance, told apart by their steps, and the
    resolutions they are drawn for. *)
Definition fine_curve : curve (L := small_libs) :=
  {| curve_label := label_of 179 180; curve_steps := [0; 10];
     curve_loss := []; curve_grad_norms := []; curve_mean_dist := [] |}.

Definition coarse_curve : curve (L := small_libs) :=
  {| curve_label := label_of 9 10; curve_steps := [];
     curve_loss := []; curve_grad_norms := []; curve_mean_dist := [] |}.

Definition resolution_of (c : curve (L := small_libs)) : Z * Z :=
  match curve_steps c with
  | [] => (9, 10)
  | _ :: _ => (179, 180)
  end.

End ResolutionPlots.

(** ** The point labels of the temperature plots *)

Module TemperatureLabels.

(** [f"{str(row['temperature']).rstrip('0').rstrip('.')}"], from the
    string [str(row['temperature'])]. *)
Definition temperature_text (str_temperature : string) : string :=
  Py.rstrip "." (Py.rstrip "0" str_temperature).

End TemperatureLabels.

(** ** What the results cell leaves bound *)

Module ResultsBinding.
Import Metrics TemperatureAblation.

Section Loop.
Context {M : Libs}.

(** The frame bound to [all_results_df] when the loop of the results cell
    stops, and the exception that stopped it, if any. The name is rebound
    by [pd.concat] at the end of each turn, after both metrics are
    computed: a turn that raises leaves the frame of the turns before. *)
Fixpoint results_loop_bound
    (all_generated_molecules : Dict.dict (K := setting) (V := list molecule))
    (items : list (setting * list molecule)) (df : list results_row)
    : list results_row * option exception :=
  match items with
  | [] => (df, None)
  | (model, molecules) :: items' =>
      if Nat.eqb (List.length molecules) 0
      then results_loop_bound all_generated_molecules items' df
      else
        match
          generated <- Dict.item setting_eqb model all_generated_molecules ;;
          validity_fraction <- compute_validity generated molecules ;;
          uniqueness_fraction <- compute_uniqueness molecules ;;
          Ok (validity_fraction, uniqueness_fraction)
        with
        | Ok (validity_fraction, uniqueness_fraction) =>
            let '(pit, fait) := model in
            results_loop_bound all_generated_molecules items'
              (df ++ [{| pit := pit; fait := fait;
                         validity := validity_fraction;
                         uniqueness := uniqueness_fraction |}])
        | Raise e => (df, Some e)
        end
  end.
End Loop.

End ResultsBinding.

(** ** Where a launch writes *)

Module Sweeps.
Import Shell.

(** The [--workdir=...] argument of a launch. *)
Definition workdir (l : launch) : option string :=
  find (String.prefix "--workdir=") (launch_argv l).

End Sweeps.

(** ** The rows of the metric frames *)

Module TableRows.
Import Metrics.

Section Rows.
Context {M : Libs}.

(** The row of a record [{"model": model, column: [fraction]}]. *)
Definition record_row (r : string * number) : list value :=
  [VStr (fst r); VNum (snd r)].

Definition concat_records (records : list (string * number)) (df : frame)
    : frame :=
  fold_left (fun df r => concat_row df (record_row r)) records df.
End Rows.

End TableRows.

(** * Properties *)


(** ** Lists, ranges and dictionaries *)

Lemma range_succ (k : nat) :
  range (Z.of_nat (S k)) = range (Z.of_nat k) ++ [Z.of_nat k].
Proof.
  unfold range. rewrite !Nat2Z.id, seq_S, map_app. reflexivity.
Qed.

Lemma range_of_nat (n : Z) : range n = range (Z.of_nat (Z.to_nat n)).
Proof. unfold range. now rewrite Nat2Z.id. Qed.

Lemma in_range (n s : Z) : In s (range n) <-> 0 <= s < n.
Proof.
  unfold range. rewrite in_map_iff. split.
  - intros (i & <- & Hi). apply in_seq in Hi. lia.
  - intros H. exists (Z.to_nat s). split; [lia|]. apply in_seq. lia.
Qed.

Lemma traverse_total {A B : Type} (f : A -> result B) (l : list A) :
  (forall a, In a l -> exists b, f a = Ok b) ->
  exists bs, traverse f l = Ok bs /\ List.length bs = List.length l.
Proof.
  induction l as [|a l IH]; intros H; simpl.
  - now exists [].
  - destruct (H a (or_introl eq_refl)) as [b ->].
    destruct IH as (bs & -> & Hlen); [intros; apply H; now right|].
    exists (b :: bs). simpl. now rewrite Hlen.
Qed.

Lemma traverse_Ok_inv {A B : Type} (f : A -> result B) (l : list A)
    (bs : list B) :
  traverse f l = Ok bs -> Forall2 (fun a b => f a = Ok b) l bs.
Proof.
  revert bs. induction l as [|a l IH]; simpl; intros bs H.
  - injection H as <-. constructor.
  - destruct (f a) as [b|e] eqn:Ea; [|discriminate]. cbn [bind] in H.
    destruct (traverse f l) as [bs'|e]; [|discriminate]. cbn [bind] in H.
    injection H as <-. constructor; auto.
Qed.

(** When [traverse] succeeds its result is the image under any function
    that agrees with the successful calls. *)
Lemma traverse_Ok_map {A B : Type} (f : A -> result B) (g : A -> B)
    (l : list A) (bs : list B) :
  (forall a b, f a = Ok b -> b = g a) ->
  traverse f l = Ok bs ->
  bs = map g l /\ forall a, In a l -> f a = Ok (g a).
Proof.
  intros Hg H. apply traverse_Ok_inv in H.
  induction H as [|a b l bs Hab _ [IH1 IH2]]; simpl.
  - split; [reflexivity|tauto].
  - pose proof (Hg _ _ Hab) as ->. split; [now rewrite IH1|].
    intros a' [<-|Hin]; auto.
Qed.

Lemma traverse_map {A B C : Type} (f : B -> result C) (g : A -> B)
    (l : list A) :
  traverse f (map g l) = traverse (fun a => f (g a)) l.
Proof.
  induction l as [|a l IH]; simpl; [reflexivity|]. now rewrite IH.
Qed.

Lemma filter_filter {A : Type} (p q : A -> bool) (l : list A) :
  filter p (filter q l) = filter (fun a => q a && p a) l.
Proof.
  induction l as [|a l IH]; simpl; [reflexivity|].
  destruct (q a); simpl; [destruct (p a)|]; now rewrite IH.
Qed.

(** Two nested loops visit the pairs in row order. *)
Lemma fold_left_nested {A B C : Type} (g : A -> B * C -> A)
    (l1 : list B) (l2 : list C) (a : A) :
  fold_left (fun a b => fold_left (fun a c => g a (b, c)) l2 a) l1 a
  = fold_left g (flat_map (fun b => map (fun c => (b, c)) l2) l1) a.
Proof.
  revert a. induction l1 as [|b l1 IH]; intros a; simpl; [reflexivity|].
  rewrite fold_left_app, <- IH. f_equal.
  clear. revert a. induction l2 as [|c l2 IH]; intros a; simpl; auto.
Qed.

Lemma range_sorted (n : Z) : StronglySorted Z.lt (range n).
Proof.
  unfold range. generalize 0%nat.
  induction (Z.to_nat n) as [|m IH]; intros a; simpl; constructor.
  - apply IH.
  - apply Forall_forall. intros s Hs. apply in_map_iff in Hs.
    destruct Hs as (i & <- & Hi). apply in_seq in Hi. lia.
Qed.

Lemma filter_sorted {A : Type} (lt : A -> A -> Prop) (p : A -> bool)
    (l : list A) :
  StronglySorted lt l -> StronglySorted lt (filter p l).
Proof.
  induction 1 as [|a l Hs IH Hall]; simpl; [constructor|].
  destruct (p a); [|assumption]. constructor; [assumption|].
  rewrite Forall_forall in *. intros x Hx. apply filter_In in Hx.
  now apply Hall.
Qed.

Lemma range_pos (n : Z) :
  1 <= n -> exists tl, range n = 0 :: tl.
Proof.
  intros H. unfold range. destruct (Z.to_nat n) as [|m] eqn:E; [lia|].
  simpl. eauto.
Qed.

Module DictFacts.
Section DictFacts.
Context {K V : Type} (eqb : K -> K -> bool).
Hypothesis eqb_eq : forall a b, eqb a b = true <-> a = b.

Lemma set_fresh (k : K) (v : V) (d : Dict.dict) :
  ~ In k (Dict.keys d) -> Dict.set eqb k v d = d ++ [(k, v)].
Proof.
  induction d as [|[k' v'] d IH]; simpl; intros H; [reflexivity|].
  destruct (eqb k k') eqn:E.
  - apply eqb_eq in E. subst. tauto.
  - rewrite IH; tauto.
Qed.

Lemma get_in (k : K) (d : Dict.dict (V := V)) :
  In k (Dict.keys d) -> exists v, Dict.get eqb k d = Some v.
Proof.
  induction d as [|[k' v'] d IH]; simpl; [tauto|]. intros H.
  destruct (eqb k k') eqn:E; [now eexists|].
  destruct H as [H|H]; [|now apply IH].
  subst. assert (eqb k k = true) by now apply eqb_eq. congruence.
Qed.

Lemma get_not_in (k : K) (d : Dict.dict (V := V)) :
  ~ In k (Dict.keys d) -> Dict.get eqb k d = None.
Proof.
  induction d as [|[k' v'] d IH]; simpl; [reflexivity|]. intros H.
  destruct (eqb k k') eqn:E.
  - apply eqb_eq in E. subst. tauto.
  - apply IH. tauto.
Qed.

(** In a dictionary built by a comprehension over distinct keys, a key
    maps to the comprehension's value. *)
Lemma get_map (f : K -> V) (k : K) (l : list K) :
  In k l -> Dict.get eqb k (map (fun a => (a, f a)) l) = Some (f k).
Proof.
  induction l as [|a l IH]; simpl; [tauto|]. intros H.
  destruct (eqb k a) eqn:E.
  - apply eqb_eq in E. now subst.
  - destruct H as [H|H]; [|now apply IH].
    subst. assert (eqb k k = true) by now apply eqb_eq. congruence.
Qed.

(** A loop that sets distinct new keys appends its items in order. *)
Lemma fold_set (p : K -> bool) (f : K -> V) (ks : list K) :
  NoDup ks ->
  forall d : Dict.dict,
    (forall k, In k ks -> ~ In k (Dict.keys d)) ->
    fold_left
      (fun d k => if negb (p k) then d else Dict.set eqb k (f k) d) ks d
    = d ++ map (fun k => (k, f k)) (filter p ks).
Proof.
  induction 1 as [|k ks Hk Hnd IH]; intros d Hd; simpl.
  - now rewrite app_nil_r.
  - destruct (p k); cbn [negb].
    + rewrite set_fresh by (apply Hd; now left).
      rewrite IH.
      * now rewrite <- app_assoc.
      * intros k' Hk'. unfold Dict.keys. rewrite map_app, in_app_iff.
        intros [Hin|[<-|[]]]; [|contradiction].
        apply (Hd k'); [now right|exact Hin].
    + apply IH. intros k' Hk'. apply Hd. now right.
Qed.
End DictFacts.
End DictFacts.

(** ** The training loop of [optimize_coeffs] *)

Module OptimizeCoeffsFacts.
Import ResolutionRandomPoints.

Section Loop.
Context {L : Libs} {R : Random L}.
Variable random_points : array.
Variable true_signal : irreps_array.
Variables lmax position_channels res_alpha res_beta : Z.

Local Abbreviation recorded := (recorded random_points true_signal lmax
                        position_channels res_alpha res_beta).
Local Abbreviation loop := (training_loop random_points true_signal lmax
                    position_channels res_alpha res_beta).
Local Abbreviation body := (loop_body random_points true_signal res_alpha res_beta).
Local Abbreviation iterates := (adam_iterates true_signal lmax position_channels
                        res_alpha res_beta).
Local Abbreviation eval := (evaluation random_points true_signal res_alpha res_beta).
Local Abbreviation loss := (loss_fn true_signal res_alpha res_beta).

Lemma loop_succ (k : nat) :
  loop (Z.of_nat (S k)) = body (loop (Z.of_nat k)) (Z.of_nat k).
Proof.
  unfold training_loop. rewrite range_succ, fold_left_app. reflexivity.
Qed.

Lemma loop_params (k : nat) :
  (ls_coeffs (loop (Z.of_nat k)), ls_opt_state (loop (Z.of_nat k)))
  = iterates k.
Proof.
  induction k as [|k IH].
  - reflexivity.
  - rewrite loop_succ. cbn [adam_iterates]. rewrite <- IH.
    unfold loop_body, train_step, value_and_grad.
    destruct (adam_update _ _ _ _) as [updates st'].
    destruct (rmse_of_samples _ _ _ _); reflexivity.
Qed.

Lemma loop_dict_succ (k : nat) :
  training_dict (loop (Z.of_nat (S k)))
  = if every_10 (Z.of_nat k)
    then Dict.set Z.eqb (Z.of_nat k) (recorded (Z.of_nat k))
           (training_dict (loop (Z.of_nat k)))
    else training_dict (loop (Z.of_nat k)).
Proof.
  rewrite loop_succ. unfold recorded. rewrite Nat2Z.id.
  cbn [adam_iterates]. rewrite <- (loop_params k).
  unfold loop_body, train_step, value_and_grad, evaluation, every_10.
  destruct (adam_update _ _ _ _) as [updates st'].
  cbn [fst snd ls_coeffs ls_opt_state].
  destruct (rmse_of_samples _ _ _ _) as [m sd].
  cbn [training_dict fst snd].
  destruct (Z.of_nat k mod 10 =? 0); reflexivity.
Qed.

Lemma loop_dict (k : nat) :
  training_dict (loop (Z.of_nat k))
  = map (fun s => (s, recorded s)) (filter every_10 (range (Z.of_nat k))).
Proof.
  induction k as [|k IH].
  - reflexivity.
  - rewrite loop_dict_succ, range_succ, filter_app, map_app, IH.
    cbn [filter]. destruct (every_10 (Z.of_nat k)); cbn [map].
    + apply (DictFacts.set_fresh Z.eqb Z.eqb_eq).
      unfold Dict.keys. rewrite map_map. cbn [fst]. rewrite map_id.
      rewrite filter_In, in_range. lia.
    + now rewrite app_nil_r.
Qed.

Lemma optimize_coeffs_dict (n : Z) :
  optimize_coeffs random_points true_signal lmax position_channels
    res_alpha res_beta n
  = map (fun s => (s, recorded s)) (filter every_10 (range n)).
Proof.
  unfold optimize_coeffs, training_loop.
  rewrite (range_of_nat n). apply loop_dict.
Qed.

Lemma optimize_coeffs_keys (n : Z) :
  Dict.keys (optimize_coeffs random_points true_signal lmax
               position_channels res_alpha res_beta n)
  = filter every_10 (range n).
Proof.
  rewrite optimize_coeffs_dict. unfold Dict.keys.
  rewrite map_map. cbn [fst]. apply map_id.
Qed.

Local Abbreviation run := (optimize_coeffs random_points true_signal lmax
                             position_channels res_alpha res_beta).

Lemma optimize_coeffs_get (n s : Z) :
  Dict.get Z.eqb s (run n)
  = if (0 <=? s) && (s <? n) && every_10 s then Some (recorded s)
    else None.
Proof.
  rewrite optimize_coeffs_dict.
  destruct ((0 <=? s) && (s <? n) && every_10 s) eqn:E.
  - apply (DictFacts.get_map Z.eqb Z.eqb_eq).
    rewrite filter_In, in_range.
    rewrite !andb_true_iff, Z.leb_le, Z.ltb_lt in E. tauto.
  - apply (DictFacts.get_not_in Z.eqb Z.eqb_eq).
    unfold Dict.keys. rewrite map_map. cbn [fst]. rewrite map_id.
    rewrite filter_In, in_range. intros [Hr He].
    rewrite He, andb_true_r in E.
    apply andb_false_iff in E.
    rewrite Z.leb_gt, Z.ltb_ge in E. lia.
Qed.

Lemma first_key (n : Z) : 1 <= n -> first (Dict.keys (run n)) = Ok 0.
Proof.
  intros H. rewrite optimize_coeffs_keys.
  destruct (range_pos n H) as [tl ->]. reflexivity.
Qed.
End Loop.

(** *** The grid cell *)

Lemma last_item_in {A : Type} (a : A) (l : list A) :
  exists b, last_item (a :: l) = Ok b /\ In b (a :: l).
Proof.
  unfold last_item. destruct (rev (a :: l)) as [|b tl] eqn:E.
  - apply (f_equal (@List.length A)) in E.
    rewrite length_rev in E. discriminate.
  - exists b. split; [reflexivity|]. apply in_rev. rewrite E. now left.
Qed.

Section GridFacts.
Context {L : Libs} {R : Random L}.
Variable random_points : array.
Variable random_signal : irreps_array.

Lemma column_total {A : Type} (field : entry -> A)
    (d : Dict.dict (K := Z) (V := entry)) :
  exists col, column field d = Ok col.
Proof.
  unfold column.
  destruct (traverse_total
              (fun step => e <- Dict.item Z.eqb step d ;; Ok (field e))
              (Dict.keys d)) as (col & -> & _); [|eauto].
  intros k Hk. unfold Dict.item.
  destruct (DictFacts.get_in Z.eqb Z.eqb_eq k d Hk) as [v ->].
  simpl. eauto.
Qed.

Lemma grid_point_completes (res_alpha res_beta lmax position_channels : Z) :
  exists row,
    grid_point random_points random_signal res_alpha res_beta lmax
      position_channels = Ok row.
Proof.
  unfold grid_point.
  pose proof (first_key random_points random_signal lmax position_channels
                res_alpha res_beta 10000 ltac:(lia)) as Hfirst.
  revert Hfirst.
  generalize (optimize_coeffs random_points random_signal lmax
                position_channels res_alpha res_beta 10000).
  intros d Hfirst. rewrite Hfirst. cbn [bind].
  destruct (Dict.keys d) as [|k0 ks] eqn:Ek; [discriminate|].
  destruct (last_item_in k0 ks) as (last & -> & Hin). cbn [bind].
  change (assert (0 =? 0)) with (Ok tt). cbn [bind].
  destruct (column_total entry_loss_value d) as [c1 ->]. cbn [bind].
  destruct (column_total entry_grad_norms d) as [c2 ->]. cbn [bind].
  rewrite <- Ek in Hin. unfold Dict.item.
  destruct (DictFacts.get_in Z.eqb Z.eqb_eq last d Hin) as [e ->].
  cbn [bind].
  destruct (column_total entry_mean_dist d) as [c3 ->]. cbn [bind].
  destruct (column_total entry_std_dist d) as [c4 ->]. cbn [bind].
  eauto.
Qed.

Lemma grid_cell_completes :
  exists rows,
    grid_cell random_points random_signal = Ok rows
    /\ List.length rows = 12%nat.
Proof.
  unfold grid_cell.
  match goal with
  | |- context [traverse ?f ?l] =>
      destruct (traverse_total f l) as (rows & -> & Hlen)
  end.
  - intros [[[ra rb] lm] pc] _. apply grid_point_completes.
  - exists rows. split; [reflexivity|]. rewrite Hlen. reflexivity.
Qed.
End GridFacts.

(** *** The claims about [optimize_coeffs] *)

(** C1. The loss of every training step is the KL divergence between the
    target distribution, computed from the true signal at the given
    resolution, and the logits that [log_coeffs_to_logits] gives for the
    current coefficients; the step replaces the coefficients by the result
    of applying the Adam update (learning rate 1e-3) computed from the
    gradient of that loss. Every iteration of the loop is such a step, and
    the loss recorded under a key is the KL divergence at the coefficients
    the step started from. *)
Theorem optimize_coeffs_minimizes_kl
    {L : Libs} {R : Random L} (random_points : array)
    (true_signal : irreps_array)
    (lmax position_channels res_alpha res_beta : Z) :
  let kl := fun coeffs =>
    kl_divergence_on_spheres
      (average_target_distributions true_signal res_alpha res_beta)
      (log_coeffs_to_logits coeffs res_beta res_alpha 1) in
  let adam := fun coeffs st =>
    adam_update (1 # 1000) (grad kl coeffs) st coeffs in
  let state_after := fun k : nat =>
    training_loop random_points true_signal lmax position_channels
      res_alpha res_beta (Z.of_nat k) in
  (forall coeffs st,
      train_step true_signal res_alpha res_beta coeffs st
      = (apply_updates coeffs (fst (adam coeffs st)), snd (adam coeffs st),
         kl coeffs, norm (array_of (grad kl coeffs))))
  /\ (forall k,
        let before := state_after k in
        let after := state_after (S k) in
        ls_coeffs after
        = apply_updates (ls_coeffs before)
            (fst (adam (ls_coeffs before) (ls_opt_state before)))
        /\ ls_opt_state after
           = snd (adam (ls_coeffs before) (ls_opt_state before)))
  /\ (forall n k e,
        Dict.get Z.eqb (Z.of_nat k)
          (optimize_coeffs random_points true_signal lmax position_channels
             res_alpha res_beta n) = Some e ->
        entry_loss_value e = float_of (kl (ls_coeffs (state_after k)))
        /\ entry_coeffs e = array_of (ls_coeffs (state_after (S k)))).
Proof.
  intros kl adam state_after.
  assert (Hstep : forall coeffs st,
             train_step true_signal res_alpha res_beta coeffs st
             = (apply_updates coeffs (fst (adam coeffs st)),
                snd (adam coeffs st),
                kl coeffs, norm (array_of (grad kl coeffs)))).
  { intros coeffs st. unfold train_step, value_and_grad, adam.
    change (loss_fn true_signal res_alpha res_beta) with kl.
    destruct (adam_update _ _ _ _); reflexivity. }
  assert (Hiter : forall k,
             adam_iterates true_signal lmax position_channels res_alpha
               res_beta (S k)
             = (apply_updates (ls_coeffs (state_after k))
                  (fst (adam (ls_coeffs (state_after k))
                          (ls_opt_state (state_after k)))),
                snd (adam (ls_coeffs (state_after k))
                       (ls_opt_state (state_after k))))).
  { intros k. cbn [adam_iterates]. unfold state_after.
    rewrite <- (loop_params random_points). unfold adam.
    change (loss_fn true_signal res_alpha res_beta) with kl.
    destruct (adam_update _ _ _ _); reflexivity. }
  assert (Hfst : forall k,
             fst (adam_iterates true_signal lmax position_channels res_alpha
                    res_beta k) = ls_coeffs (state_after k)).
  { intros k. unfold state_after.
    now rewrite <- (loop_params random_points). }
  split; [exact Hstep|]. split.
  - intros k before after. subst before after.
    pose proof (loop_params random_points true_signal lmax
                  position_channels res_alpha res_beta (S k)) as Hp.
    rewrite Hiter in Hp. fold (state_after (S k)) in Hp.
    now inversion Hp.
  - intros n k e He. rewrite optimize_coeffs_get in He.
    destruct (_ && _); [|discriminate].
    injection He as <-. unfold recorded. rewrite Nat2Z.id.
    cbn [evaluation entry_loss_value entry_coeffs].
    now rewrite !Hfst.
Qed.

(** C2. The loop of [optimize_coeffs]: the coefficients start as a random
    draw ([e3nn.normal] with the key [PRNGKey(0)]); every step of
    [range(num_training_steps)] computes the loss and applies one optimizer
    update, so the loop ends in the [num_training_steps]-th Adam iterate;
    and exactly at the steps divisible by 10 the distance metric
    [rmse_of_samples] (1000 samples, key [fold_in(rng, step)]) is evaluated
    against the points [random_points] on the distribution of the updated
    coefficients, and recorded under the step. *)
Theorem optimize_coeffs_loop_structure
    {L : Libs} {R : Random L} (random_points : array)
    (true_signal : irreps_array)
    (lmax position_channels res_alpha res_beta : Z)
    (num_training_steps : Z) :
  let loop :=
    training_loop random_points true_signal lmax position_channels
      res_alpha res_beta in
  let iterate :=
    adam_iterates true_signal lmax position_channels res_alpha res_beta in
  ls_coeffs (loop 0)
  = normal (s2_irreps lmax 1 (-1)) (PRNGKey 0) (position_channels, 1)
  /\ (ls_coeffs (loop num_training_steps),
       ls_opt_state (loop num_training_steps))
     = iterate (Z.to_nat num_training_steps)
  /\ (forall step,
        Dict.get Z.eqb step (training_dict (loop num_training_steps))
        = if (0 <=? step) && (step <? num_training_steps)
             && (step mod 10 =? 0)
          then
            let before := fst (iterate (Z.to_nat step)) in
            let after := fst (iterate (S (Z.to_nat step))) in
            let dists :=
              rmse_of_samples
                (coeffs_to_distribution after res_alpha res_beta)
                random_points (fold_in (PRNGKey 0) step) 1000 in
            Some {| entry_coeffs := array_of after;
                    entry_loss_value :=
                      float_of (loss_fn true_signal res_alpha res_beta
                                  before);
                    entry_grad_norms :=
                      float_of
                        (norm (array_of
                                 (grad (loss_fn true_signal res_alpha
                                          res_beta) before)));
                    entry_mean_dist := float_of (fst dists);
                    entry_std_dist := float_of (snd dists) |}
          else None).
Proof.
  intros loop iterate. split; [reflexivity|]. split.
  - subst loop iterate. unfold training_loop.
    rewrite (range_of_nat num_training_steps).
    apply (loop_params random_points).
  - intros step. apply optimize_coeffs_get.
Qed.

(** C9. With at least one training step, the keys of the returned
    [training_dict] are exactly the multiples of 10 below
    [num_training_steps], in increasing order; the first key is 0, and the
    grid cell, whose every point asserts [first_step == 0], completes with
    its twelve rows. *)
Theorem optimize_coeffs_keys_multiples_of_10
    {L : Libs} {R : Random L} (random_points : array)
    (true_signal : irreps_array)
    (lmax position_channels res_alpha res_beta : Z)
    (num_training_steps : Z) :
  1 <= num_training_steps ->
  let keys :=
    Dict.keys
      (optimize_coeffs random_points true_signal lmax position_channels
         res_alpha res_beta num_training_steps) in
  (forall s, In s keys <-> 0 <= s < num_training_steps /\ s mod 10 = 0)
  /\ StronglySorted Z.lt keys
  /\ first keys = Ok 0
  /\ exists rows,
       grid_cell random_points true_signal = Ok rows
       /\ List.length rows = 12%nat.
Proof.
  intros Hn keys. subst keys.
  split; [|split; [|split]].
  - intros s. rewrite optimize_coeffs_keys, filter_In, in_range.
    unfold every_10. now rewrite Z.eqb_eq.
  - rewrite optimize_coeffs_keys. apply filter_sorted, range_sorted.
  - now apply first_key.
  - apply grid_cell_completes.
Qed.

(** C10. [optimize_coeffs] draws nothing outside the keys derived from
    [PRNGKey(0)]: two samplers that agree on the initial draw at
    [PRNGKey(0)] and on [rmse_of_samples] at the keys
    [fold_in(PRNGKey(0), step)] of the recorded steps give, on equal
    arguments, the same [training_dict]. *)
Theorem optimize_coeffs_deterministic
    {L : Libs} (R1 R2 : Random L) (random_points : array)
    (true_signal : irreps_array)
    (lmax position_channels res_alpha res_beta : Z)
    (num_training_steps : Z) :
  normal (Random := R1) (s2_irreps lmax 1 (-1)) (PRNGKey 0)
    (position_channels, 1)
  = normal (Random := R2) (s2_irreps lmax 1 (-1)) (PRNGKey 0)
      (position_channels, 1) ->
  (forall step dist,
      0 <= step < num_training_steps -> step mod 10 = 0 ->
      rmse_of_samples (Random := R1) dist random_points
        (fold_in (PRNGKey 0) step) 1000
      = rmse_of_samples (Random := R2) dist random_points
          (fold_in (PRNGKey 0) step) 1000) ->
  optimize_coeffs (R := R1) random_points true_signal lmax
    position_channels res_alpha res_beta num_training_steps
  = optimize_coeffs (R := R2) random_points true_signal lmax
      position_channels res_alpha res_beta num_training_steps.
Proof.
  intros Hinit Heval.
  assert (Hit : forall k,
             adam_iterates (R := R1) true_signal lmax position_channels
               res_alpha res_beta k
             = adam_iterates (R := R2) true_signal lmax position_channels
                 res_alpha res_beta k).
  { induction k as [|k IH]; cbn [adam_iterates].
    - unfold initial_coeffs, rng. now rewrite Hinit.
    - now rewrite IH. }
  rewrite !optimize_coeffs_dict. apply map_ext_in.
  intros s Hs. apply filter_In in Hs. destruct Hs as [Hr Hm].
  apply in_range in Hr. apply Z.eqb_eq in Hm.
  unfold recorded, evaluation. rewrite !Hit, Heval by assumption.
  reflexivity.
Qed.

(** The theorem of C9 at the small instance, with 25 training steps. *)
Lemma optimize_coeffs_keys_witness :
  1 <= 25
  /\ first
       (Dict.keys
          (optimize_coeffs (L := small_libs) (R := small_random)
             3 100 5 2 9 10 25)) = Ok 0.
Proof.
  assert (H : 1 <= 25) by lia. split; [exact H|].
  exact (proj1 (proj2 (proj2
           (optimize_coeffs_keys_multiples_of_10 (L := small_libs)
              (R := small_random) 3 100 5 2 9 10 25 H)))).
Defined.

(** The theorem of C10 at the small instance: [small_random] and
    [other_random] differ, but not on the keys [optimize_coeffs] uses. *)
Lemma optimize_coeffs_deterministic_witness :
  normal (Random := small_random) 0 1 (0, 0)
  <> normal (Random := other_random) 0 1 (0, 0)
  /\ optimize_coeffs (L := small_libs) (R := small_random)
       3 100 5 2 9 10 25
     = optimize_coeffs (L := small_libs) (R := other_random)
         3 100 5 2 9 10 25.
Proof.
  split; [discriminate|].
  apply (optimize_coeffs_deterministic (L := small_libs)
           small_random other_random 3 100 5 2 9 10 25).
  - reflexivity.
  - intros step dist _ _.
    cbn [rmse_of_samples small_random other_random fold_in PRNGKey small_libs].
    unfold other_rmse.
    replace (2 * (0 + step) + 1) with (1 + 2 * step) by lia.
    now rewrite Z.odd_add_mul_2.
Defined.

Example optimize_coeffs_small_run :
  Dict.keys
    (optimize_coeffs (L := small_libs) (R := small_random) 3 100 5 2 9 10 25)
  = [0; 10; 20].
Proof. reflexivity. Qed.

End OptimizeCoeffsFacts.

(** ** The sweep scripts *)

Module SweepFacts.
Import Shell.

Lemma learning_rates_all_succeed (w : world) :
  run_script (all_succeed w) learning_rates = learning_rates_grid.
Proof. reflexivity. Qed.

(** The learning-rates script stops at the first run that fails. *)
Lemma learning_rates_run (w : world) :
  run_script w learning_rates
  = up_to_first_failure (exit_status w) learning_rates_grid.
Proof.
  destruct w as [st co]. cbv -[Nat.eqb].
  repeat match goal with
         | |- context [Nat.eqb (st ?l) 0] =>
             destruct (Nat.eqb (st l) 0); cbv beta iota
         end; reflexivity.
Qed.

Lemma up_to_first_failure_incl (status : launch -> nat) (ls : list launch) :
  incl (up_to_first_failure status ls) ls.
Proof.
  induction ls as [|l ls IH]; simpl; [easy|].
  destruct (Nat.eqb (status l) 0).
  - intros r [<-|Hr]; [now left|right; now apply IH].
  - intros r [<-|[]]. now left.
Qed.

(** The degree and the device of the runs of [tetris.sh], in order. *)
Lemma tetris_run (w : world) :
  map (fun r => (max_ell r, cuda_visible_devices r)) (run_script w tetris)
  = map (fun l => (Some (show l), Some (show (l - 1)))) [1; 2; 3; 4; 5].
Proof. destruct w as [st co]. vm_compute. reflexivity. Qed.

Lemma tetris_devices_distinct (p1 p2 : option string * option string) :
  let table :=
    map (fun l => (Some (show l), Some (show (l - 1)))) [1; 2; 3; 4; 5] in
  In p1 table -> In p2 table -> fst p1 <> fst p2 -> snd p1 <> snd p2.
Proof.
  intros table H1 H2. subst table. vm_compute in H1, H2.
  repeat destruct H1 as [<-|H1]; try contradiction;
    repeat destruct H2 as [<-|H2]; try contradiction;
    cbn [fst snd]; congruence.
Qed.

(** C3, as stated, fails: no script sweeps the focus or position inverse
    temperature. *)
Lemma every_hyperparameter_swept_counterexample :
  ~ (forall h : hyperparameter,
        exists script, In script sweep_scripts /\ sweeps script h = true).
Proof.
  intros H. destruct (H InverseTemperature) as (script & Hin & Hs).
  destruct Hin as [<-|[<-|[]]]; vm_compute in Hs; discriminate.
Qed.

(** C3, amended. A hyperparameter of the specification's list is swept by
    some script exactly when it is the learning-rate schedule, the channel
    count, the interaction count or the spherical-harmonic degree; every
    flag a script takes from a loop variable is one of these four, so no
    script loops over an inverse temperature. *)
Theorem swept_hyperparameters :
  (forall h : hyperparameter,
      (exists script, In script sweep_scripts /\ sweeps script h = true)
      <-> h <> InverseTemperature)
  /\ (forall script p,
        In script sweep_scripts -> In p (swept_flags script) ->
        In p grid_flags)
  /\ sweeps learning_rates LearningRateSchedule = true
  /\ sweeps tetris ChannelCount = true
  /\ sweeps tetris InteractionCount = true
  /\ sweeps tetris SphericalHarmonicDegree = true.
Proof.
  split; [|split; [|repeat split]].
  - intros h. split.
    + intros (script & Hin & Hs) ->.
      destruct Hin as [<-|[<-|[]]]; vm_compute in Hs; discriminate.
    + intros Hh. exists learning_rates. split; [right; now left|].
      destruct h; try reflexivity. congruence.
  - intros script p [<-|[<-|[]]] Hp; vm_compute in Hp; vm_compute;
      intuition congruence.
Qed.

(** C4, as stated, fails: in the learning-rates script a failing run
    changes what is launched afterwards. *)
Lemma launch_failure_ignored_counterexample :
  ~ (forall script w w',
        In script sweep_scripts ->
        command_output w = command_output w' ->
        run_script w script = run_script w' script).
Proof.
  intros H.
  specialize (H learning_rates healthy failing (or_intror (or_introl eq_refl))
                eq_refl).
  apply (f_equal (@List.length launch)) in H. vm_compute in H.
  discriminate.
Qed.

(** C4, amended. What [tetris.sh] launches does not depend on the exit
    status of any run: its five runs are started in the background. The
    learning-rates script runs its grid in order and, because of
    [|| break 10], stops at the first run that exits with a nonzero status:
    no later grid point is launched. *)
Theorem launch_failure_policy (w : world) :
  run_script w tetris = run_script (all_succeed w) tetris
  /\ List.length (run_script w tetris) = 5%nat
  /\ forallb launch_bg (run_script w tetris) = true
  /\ run_script w learning_rates
     = up_to_first_failure (exit_status w)
         (run_script (all_succeed w) learning_rates)
  /\ List.length (run_script (all_succeed w) learning_rates) = 4%nat.
Proof.
  split; [|split; [|split; [|split]]].
  - destruct w as [st co]. reflexivity.
  - destruct w as [st co]. reflexivity.
  - destruct w as [st co]. reflexivity.
  - rewrite learning_rates_all_succeed. apply learning_rates_run.
  - reflexivity.
Qed.

(** C5. In [tetris.sh] the run for degree [l], for [l] from 1 to 5, gets
    [CUDA_VISIBLE_DEVICES = l - 1], so two runs with different degrees are
    pinned to different devices; every run of the learning-rates script
    gets [CUDA_VISIBLE_DEVICES = 6]. *)
Theorem cuda_device_assignment (w : world) :
  map (fun r => (max_ell r, cuda_visible_devices r)) (run_script w tetris)
  = map (fun l => (Some (show l), Some (show (l - 1)))) [1; 2; 3; 4; 5]
  /\ (forall r1 r2,
        In r1 (run_script w tetris) -> In r2 (run_script w tetris) ->
        max_ell r1 <> max_ell r2 ->
        cuda_visible_devices r1 <> cuda_visible_devices r2)
  /\ (forall r,
        In r (run_script w learning_rates) ->
        is_training_run r = true
        /\ cuda_visible_devices r = Some "6"%string).
Proof.
  split; [apply tetris_run|]. split.
  - intros r1 r2 H1 H2.
    apply (in_map (fun r => (max_ell r, cuda_visible_devices r))) in H1, H2.
    rewrite tetris_run in H1, H2.
    apply (tetris_devices_distinct _ _ H1 H2).
  - intros r Hr. rewrite learning_rates_run in Hr.
    apply up_to_first_failure_incl in Hr.
    cbv [learning_rates_grid In] in Hr.
    intuition (subst; reflexivity).
Qed.

Example learning_rates_first_failure :
  List.length (run_script healthy learning_rates) = 4%nat
  /\ List.length (run_script failing learning_rates) = 1%nat.
Proof. split; reflexivity. Qed.

Example tetris_devices :
  map cuda_visible_devices (run_script healthy tetris)
  = [Some "0"; Some "1"; Some "2"; Some "3"; Some "4"]%string.
Proof. reflexivity. Qed.

End SweepFacts.

(** ** The temperature-ablation notebook *)

Module TemperatureFacts.
Import Metrics TemperatureAblation.

Lemma setting_eqb_eq (a b : setting) : setting_eqb a b = true <-> a = b.
Proof.
  destruct a as [p f], b as [p' f']. unfold setting_eqb. cbn [fst snd].
  rewrite andb_true_iff, !String.eqb_eq. split.
  - now intros [-> ->].
  - intros H. now inversion H.
Qed.

Lemma grid_NoDup : NoDup grid.
Proof.
  apply (NoDup_map_inv (fun s : setting => (fst s ^^ "/" ^^ snd s)%string)).
  match goal with
  | |- NoDup ?l =>
      replace l with (nodup string_dec l) by (vm_compute; reflexivity)
  end.
  apply NoDup_nodup.
Qed.

Section Rows.
Context {M : Libs}.

Lemma existing_NoDup : NoDup existing.
Proof. apply NoDup_filter, grid_NoDup. Qed.

Lemma generated_paths_eq :
  generated_paths = map (fun s => (s, path_of s)) existing.
Proof.
  unfold generated_paths.
  change
    (fold_left
       (fun d pit =>
          fold_left
            (fun d fait =>
               (fun d s =>
                  if negb (exists_ s) then d
                  else Dict.set setting_eqb s (path_of s) d)
                 d (pit, fait))
            temperatures d)
       temperatures []
     = map (fun s => (s, path_of s)) existing).
  rewrite fold_left_nested. fold grid.
  apply (DictFacts.fold_set setting_eqb setting_eqb_eq exists_ path_of
             grid grid_NoDup []).
  intros k _ [].
Qed.

Lemma all_generated_eq (generated : Dict.dict) :
  all_generated_molecules = Ok generated ->
  generated = map (fun s => (s, loaded s)) existing
  /\ forall s, In s existing ->
       get_all_molecules (path_of s) = Ok (loaded s).
Proof.
  unfold all_generated_molecules, comprehension, Dict.items.
  rewrite generated_paths_eq, traverse_map. cbn [fst snd]. intros H.
  apply (traverse_Ok_map _ (fun s => (s, loaded s))) in H.
  - destruct H as [-> H]. split; [reflexivity|]. intros s Hs.
    specialize (H s Hs). unfold loaded.
    destruct (get_all_molecules (path_of s)); [reflexivity|discriminate].
  - intros s b. unfold loaded.
    destruct (get_all_molecules (path_of s)); cbn [bind]; congruence.
Qed.

Lemma valid_eq (valid : Dict.dict) :
  valid_molecules (map (fun s => (s, loaded s)) existing) = Ok valid ->
  valid = map (fun s => (s, valid_of s)) existing
  /\ forall s, In s existing ->
       get_all_valid_molecules (loaded s) = Ok (valid_of s).
Proof.
  unfold valid_molecules, comprehension, Dict.items.
  rewrite traverse_map. cbn [fst snd]. intros H.
  apply (traverse_Ok_map _ (fun s => (s, valid_of s))) in H.
  - destruct H as [-> H]. split; [reflexivity|]. intros s Hs.
    specialize (H s Hs). unfold valid_of.
    destruct (get_all_valid_molecules (loaded s));
      [reflexivity|discriminate].
  - intros s b. unfold valid_of.
    destruct (get_all_valid_molecules (loaded s)); cbn [bind]; congruence.
Qed.

Lemma item_loaded (s : setting) :
  In s existing ->
  Dict.item setting_eqb s (map (fun s => (s, loaded s)) existing)
  = Ok (loaded s).
Proof.
  intros Hs. unfold Dict.item.
  now rewrite (DictFacts.get_map setting_eqb setting_eqb_eq loaded).
Qed.

Lemma results_loop_rows (l : list setting) :
  incl l existing ->
  forall df rows,
    results_loop (map (fun s => (s, loaded s)) existing)
      (map (fun s => (s, valid_of s)) l) df = Ok rows ->
    exists new,
      rows = df ++ new
      /\ map key new = filter has_valid l
      /\ Forall measured new.
Proof.
  induction l as [|s l IH]; intros Hl df rows H; cbn [map results_loop] in H.
  - injection H as <-. exists []. rewrite app_nil_r. now repeat split.
  - assert (Hs : In s existing) by (apply Hl; now left).
    assert (Hl' : incl l existing) by (intros x Hx; apply Hl; now right).
    cbn [filter]. unfold has_valid at 1.
    destruct (Nat.eqb (List.length (valid_of s)) 0); cbn [negb].
    + now apply IH.
    + rewrite (item_loaded s Hs) in H. cbn [bind] in H.
      destruct (compute_validity (loaded s) (valid_of s)) as [v|] eqn:Ev;
        [|discriminate].
      destruct (compute_uniqueness (valid_of s)) as [u|] eqn:Eu;
        [|discriminate].
      cbn [bind] in H. destruct s as [p f].
      apply IH in H; [|exact Hl'].
      destruct H as (new & -> & Hkeys & Hm).
      eexists (_ :: new). rewrite <- app_assoc. split; [reflexivity|].
      cbn [map key pit fait]. rewrite Hkeys. split; [reflexivity|].
      constructor; [|exact Hm]. split; assumption.
Qed.

Lemma results_loop_total (l : list setting) :
  incl l existing ->
  (forall s, In s l -> has_valid s = true ->
             (exists v, compute_validity (loaded s) (valid_of s) = Ok v)
             /\ exists u, compute_uniqueness (valid_of s) = Ok u) ->
  forall df, exists rows,
    results_loop (map (fun s => (s, loaded s)) existing)
      (map (fun s => (s, valid_of s)) l) df = Ok rows.
Proof.
  induction l as [|s l IH]; intros Hl Hm df; cbn [map results_loop].
  - eauto.
  - assert (Hs : In s existing) by (apply Hl; now left).
    assert (Hl' : incl l existing) by (intros x Hx; apply Hl; now right).
    assert (Hm' : forall s', In s' l -> has_valid s' = true ->
               (exists v, compute_validity (loaded s') (valid_of s') = Ok v)
               /\ exists u, compute_uniqueness (valid_of s') = Ok u)
      by (intros s' Hs'; apply Hm; now right).
    pose proof (Hm s (or_introl eq_refl)) as Hms. unfold has_valid in Hms.
    destruct (Nat.eqb (List.length (valid_of s)) 0).
    + now apply IH.
    + destruct (Hms eq_refl) as [[v Hv] [u Hu]].
      rewrite (item_loaded s Hs). cbn [bind].
      rewrite Hv. cbn [bind]. rewrite Hu. cbn [bind].
      destruct s as [p f]. now apply IH.
Qed.

Lemma kept_filter : filter kept grid = filter has_valid existing.
Proof. unfold existing. now rewrite filter_filter. Qed.

(** The rows of [all_results_df], when the cell completes. *)
Lemma all_results_rows (rows : list results_row) :
  all_results_df = Ok rows ->
  map key rows = filter kept grid
  /\ Forall measured rows
  /\ forall s, In s existing ->
       get_all_molecules (path_of s) = Ok (loaded s)
       /\ get_all_valid_molecules (loaded s) = Ok (valid_of s).
Proof.
  unfold all_results_df. intros H.
  destruct all_generated_molecules as [generated|] eqn:Eg; [|discriminate].
  cbn [bind] in H. apply all_generated_eq in Eg. destruct Eg as [-> Hload].
  destruct (valid_molecules _) as [valid|] eqn:Ev; [|discriminate].
  cbn [bind] in H. apply valid_eq in Ev. destruct Ev as [-> Hvalid].
  unfold Dict.items in H.
  apply results_loop_rows in H; [|apply incl_refl].
  destruct H as (new & -> & Hkeys & Hm). cbn [app].
  rewrite kept_filter. auto.
Qed.

Lemma all_results_total :
  (forall s, In s grid -> path_exists (path_of s) = true ->
     exists ms vs,
       get_all_molecules (path_of s) = Ok ms
       /\ get_all_valid_molecules ms = Ok vs
       /\ (vs <> [] ->
           (exists v, compute_validity ms vs = Ok v)
           /\ exists u, compute_uniqueness vs = Ok u)) ->
  exists rows, all_results_df = Ok rows.
Proof.
  intros Hlibs.
  assert (Hex : forall s, In s existing ->
             exists ms vs,
               get_all_molecules (path_of s) = Ok ms
               /\ get_all_valid_molecules ms = Ok vs
               /\ (vs <> [] ->
                   (exists v, compute_validity ms vs = Ok v)
                   /\ exists u, compute_uniqueness vs = Ok u)).
  { intros s Hs. apply filter_In in Hs. now apply Hlibs. }
  unfold all_results_df.
  destruct all_generated_molecules as [generated|e] eqn:Eg.
  - cbn [bind]. apply all_generated_eq in Eg. destruct Eg as [-> Hload].
    destruct (valid_molecules _) as [valid|e] eqn:Ev.
    + cbn [bind]. apply valid_eq in Ev. destruct Ev as [-> Hvalid].
      apply results_loop_total; [apply incl_refl|].
      intros s Hs Hv. destruct (Hex s Hs) as (ms & vs & Hms & Hvs & Hm).
      rewrite (Hload s Hs) in Hms. injection Hms as <-.
      rewrite (Hvalid s Hs) in Hvs. injection Hvs as <-.
      apply Hm. unfold has_valid in Hv.
      destruct (valid_of s); [discriminate|congruence].
    + exfalso. revert Ev. unfold valid_molecules, comprehension, Dict.items.
      rewrite traverse_map. cbn [fst snd].
      match goal with
      | |- traverse ?f ?l = _ -> _ =>
          destruct (traverse_total f l) as (bs & -> & _); [|discriminate]
      end.
      intros s Hs. destruct (Hex s Hs) as (ms & vs & Hms & Hvs & _).
      rewrite (Hload s Hs) in Hms. injection Hms as <-.
      rewrite Hvs. cbn [bind]. eauto.
  - exfalso. revert Eg.
    unfold all_generated_molecules, comprehension, Dict.items.
    rewrite generated_paths_eq, traverse_map. cbn [fst snd].
    match goal with
    | |- traverse ?f ?l = _ -> _ =>
        destruct (traverse_total f l) as (bs & -> & _); [|discriminate]
    end.
    intros s Hs. destruct (Hex s Hs) as (ms & vs & -> & _).
    cbn [bind]. eauto.
Qed.

(** Every row holds the two metrics of its own setting. *)
Lemma all_results_measured (rows : list results_row) :
  all_results_df = Ok rows ->
  forall r, In r rows ->
    exists ms vs,
      get_all_molecules (template (pit r) (fait r)) = Ok ms
      /\ get_all_valid_molecules ms = Ok vs
      /\ compute_validity ms vs = Ok (validity r)
      /\ compute_uniqueness vs = Ok (uniqueness r).
Proof.
  intros H r Hr. apply all_results_rows in H.
  destruct H as (Hkeys & Hm & Hlibs).
  rewrite Forall_forall in Hm. destruct (Hm r Hr) as [Hv Hu].
  apply (in_map key) in Hr. rewrite Hkeys in Hr.
  apply filter_In in Hr. destruct Hr as [Hg Hk].
  unfold kept in Hk. apply andb_true_iff in Hk. destruct Hk as [He _].
  assert (Hin : In (key r) existing) by (apply filter_In; split; assumption).
  destruct (Hlibs _ Hin) as [Hl Hvl].
  exists (loaded (key r)), (valid_of (key r)). auto.
Qed.
End Rows.

(** C8. When the results cell of the temperature-ablation notebook
    completes, its rows are, in grid order, the settings whose directory
    exists and whose valid molecules are not empty: a setting with a missing
    directory or no valid molecule has no row, and every row comes from an
    existing directory with a valid molecule. The cell completes whenever
    the libraries succeed on the existing directories and on the non-empty
    valid sets: nothing is asked of them on a skipped setting, which so
    raises no error. *)
Theorem skipped_settings {M : Libs} :
  (forall rows, all_results_df = Ok rows ->
     map (fun r => (pit r, fait r)) rows = filter kept grid
     /\ (forall s, In s grid ->
           path_exists (path_of s) = false
           \/ (exists ms, get_all_molecules (path_of s) = Ok ms
                          /\ get_all_valid_molecules ms = Ok []) ->
           ~ In s (map (fun r => (pit r, fait r)) rows))
     /\ (forall r, In r rows ->
           In (pit r, fait r) grid
           /\ path_exists (template (pit r) (fait r)) = true
           /\ exists ms vs,
               get_all_molecules (template (pit r) (fait r)) = Ok ms
               /\ get_all_valid_molecules ms = Ok vs
               /\ vs <> []))
  /\ ((forall s, In s grid -> path_exists (path_of s) = true ->
        exists ms vs,
          get_all_molecules (path_of s) = Ok ms
          /\ get_all_valid_molecules ms = Ok vs
          /\ (vs <> [] ->
              (exists v, compute_validity ms vs = Ok v)
              /\ exists u, compute_uniqueness vs = Ok u)) ->
      exists rows, all_results_df = Ok rows).
Proof.
  split; [|apply all_results_total].
  intros rows H. apply all_results_rows in H.
  destruct H as (Hkeys & _ & Hlibs).
  change (map (fun r => (pit r, fait r)) rows) with (map key rows).
  split; [exact Hkeys|]. split.
  - intros s Hs Hskip. rewrite Hkeys, filter_In. intros [_ Hk].
    unfold kept in Hk. apply andb_true_iff in Hk. destruct Hk as [He Hv].
    destruct Hskip as [Hne|(ms & Hms & Hvs)]; [congruence|].
    assert (Hin : In s existing) by (apply filter_In; split; assumption).
    destruct (Hlibs s Hin) as [Hl Hvl].
    rewrite Hl in Hms. injection Hms as <-.
    rewrite Hvl in Hvs. injection Hvs as Hnil.
    rewrite Hnil in Hv. discriminate.
  - intros r Hr. apply (in_map key) in Hr. rewrite Hkeys in Hr.
    apply filter_In in Hr. destruct Hr as [Hg Hk].
    unfold kept in Hk. apply andb_true_iff in Hk. destruct Hk as [He Hv].
    split; [exact Hg|]. split; [exact He|].
    assert (Hin : In (key r) existing) by (apply filter_In; split; assumption).
    destruct (Hlibs _ Hin) as [Hl Hvl].
    exists (loaded (key r)), (valid_of (key r)).
    split; [exact Hl|]. split; [exact Hvl|].
    intros Hnil. rewrite Hnil in Hv. discriminate.
Qed.

End TemperatureFacts.

(** ** The OpenBabel metrics notebook *)

Module OpenBabelFacts.
Import Metrics OpenBabel.

(** Run a cell in a hypothesis, splitting on the outcome of each library
    call it reaches. *)
Ltac run H :=
  repeat (cbn in H;
          match type of H with
          | Raise _ = Ok _ => discriminate H
          | context [bind (get_all_molecules_with_openbabel ?p) _] =>
              destruct (get_all_molecules_with_openbabel p) eqn:?
          | context [bind (get_all_valid_molecules_with_openbabel ?p) _] =>
              destruct (get_all_valid_molecules_with_openbabel p) eqn:?
          | context [bind (compute_validity ?p ?q) _] =>
              destruct (compute_validity p q) eqn:?
          | context [bind (compute_uniqueness_with_openbabel ?p) _] =>
              destruct (compute_uniqueness_with_openbabel p) eqn:?
          end);
  cbn in H.

(** Split on which configured model a name is. *)
Ltac which_model Hget finish :=
  cbn in Hget;
  lazymatch type of Hget with
  | context [String.eqb ?m ?name] =>
      let E := fresh "E" in
      destruct (String.eqb m name) eqn:E;
      [ apply String.eqb_eq in E; subst m; injection Hget as <-; finish
      | which_model Hget finish ]
  | _ => discriminate Hget
  end.

Section Tables.
Context {M : Libs}.

Lemma validity_table_cells (t : frame) :
  validity_table = Ok t ->
  index t = [VStr "Validity via OpenBabel"]
  /\ columns t = map VStr models
  /\ (exists cells,
        data t = [cells] /\ List.length cells = List.length models)
  /\ forall model path,
       Dict.get String.eqb model generated_paths = Some path ->
       exists all valid v,
         get_all_molecules_with_openbabel path = Ok all
         /\ get_all_valid_molecules_with_openbabel all = Ok valid
         /\ compute_validity all valid = Ok v
         /\ cell t "Validity via OpenBabel" model
            = Some (VStr (format_f 2 (fmul v (of_Z 100)))).
Proof.
  intros H.
  unfold validity_table, all_generated_molecules_openbabel,
    valid_molecules_openbabel, validity_openbabel_df, comprehension,
    Dict.items, generated_paths in H.
  run H. injection H as <-.
  split; [reflexivity|]. split; [reflexivity|]. split.
  - eexists. split; reflexivity.
  - intros model path Hget.
    which_model Hget
      ltac:(do 3 eexists; repeat (split; [eassumption|]); reflexivity).
Qed.

Lemma uniqueness_table_cells (t : frame) :
  uniqueness_table = Ok t ->
  index t = [VStr "Uniqueness via OpenBabel"]
  /\ columns t = map VStr models
  /\ (exists cells,
        data t = [cells] /\ List.length cells = List.length models)
  /\ forall model path,
       Dict.get String.eqb model generated_paths = Some path ->
       exists all valid u,
         get_all_molecules_with_openbabel path = Ok all
         /\ get_all_valid_molecules_with_openbabel all = Ok valid
         /\ compute_uniqueness_with_openbabel valid = Ok u
         /\ cell t "Uniqueness via OpenBabel" model
            = Some (VStr (format_f 2 (round_ 2 (fmul u (of_Z 100))))).
Proof.
  intros H.
  unfold uniqueness_table, all_generated_molecules_openbabel,
    valid_molecules_openbabel, uniqueness_openbabel_df, comprehension,
    Dict.items, generated_paths in H.
  run H. injection H as <-.
  split; [reflexivity|]. split; [reflexivity|]. split.
  - eexists. split; reflexivity.
  - intros model path Hget.
    which_model Hget
      ltac:(do 3 eexists; repeat (split; [eassumption|]); reflexivity).
Qed.
End Tables.
End OpenBabelFacts.

(** ** Validity and uniqueness in the two notebooks *)

Module MetricsFacts.
Import Metrics.
Import TemperatureAblation.

Section Plots.
Context {M : Libs}.

Lemma scatter_data_scaled (keep swept : results_row -> string)
    (rows : list results_row) (plot : list plot_row) :
  scatter_data keep swept rows = Ok plot ->
  map (fun p => (plot_validity p, plot_uniqueness p)) plot
  = map (fun r => (fmul (validity r) (of_Z 100),
                   fmul (uniqueness r) (of_Z 100)))
      (filter (fun r => String.eqb (keep r) "1.0") rows).
Proof.
  unfold scatter_data. intros H.
  destruct rows as [|r0 rows0] eqn:Erows; [discriminate|].
  rewrite <- Erows in *. clear Erows.
  apply traverse_Ok_inv in H.
  induction H as [|r p rs ps Hrp _ IH]; [reflexivity|].
  cbn [map]. rewrite IH. f_equal.
  destruct (parse_float (swept r)); [|discriminate].
  cbn [bind] in Hrp. now injection Hrp as <-.
Qed.

(** One point per selected row, in the order of the rows: the point of a
    row has the float of its swept column as inverse temperature and its
    two metrics times 100 as coordinates. *)
Lemma scatter_data_points (keep swept : results_row -> string)
    (rows : list results_row) (plot : list plot_row) :
  scatter_data keep swept rows = Ok plot ->
  Forall2
    (fun r p =>
       parse_float (swept r) = Ok (plot_inverse_temperature p)
       /\ plot_validity p = fmul (validity r) (of_Z 100)
       /\ plot_uniqueness p = fmul (uniqueness r) (of_Z 100))
    (filter (fun r => String.eqb (keep r) "1.0") rows) plot.
Proof.
  unfold scatter_data. intros H.
  destruct rows as [|r0 rows0] eqn:Erows; [discriminate|].
  rewrite <- Erows in *. clear Erows.
  apply traverse_Ok_inv in H.
  induction H as [|r p rs ps Hrp _ IH]; constructor; [|exact IH].
  destruct (parse_float (swept r)) as [x|]; [|discriminate].
  cbn [bind] in Hrp. injection Hrp as <-. now repeat split.
Qed.

(** The frame of a plot is built exactly when there is a row and
    [astype(float)] reads the swept column of every selected row. *)
Lemma scatter_data_completes (keep swept : results_row -> string)
    (rows : list results_row) :
  (exists plot, scatter_data keep swept rows = Ok plot)
  <-> rows <> []
      /\ forall r, In r rows -> String.eqb (keep r) "1.0" = true ->
           exists x, parse_float (swept r) = Ok x.
Proof.
  unfold scatter_data. split.
  - intros [plot H].
    destruct rows as [|r0 rows0] eqn:Erows; [discriminate|].
    rewrite <- Erows in *. split; [now rewrite Erows|]. clear Erows.
    apply traverse_Ok_inv in H. intros r Hr Hk.
    assert (Hin : In r (filter (fun r => String.eqb (keep r) "1.0") rows))
      by (apply filter_In; now split).
    clear Hr Hk. induction H as [|a p rs ps Hap _ IH]; [destruct Hin|].
    destruct Hin as [->|Hin]; [|now apply IH].
    destruct (parse_float (swept r)) as [x|]; [eauto|discriminate].
  - intros [Hne Hp].
    destruct rows as [|r0 rows0] eqn:Erows; [congruence|].
    rewrite <- Erows in *. clear Erows Hne.
    destruct (traverse_total
                (fun r =>
                   inverse <- parse_float (swept r) ;;
                   let temperature := fdiv (of_Z 1) inverse in
                   Ok {| plot_inverse_temperature := inverse;
                         plot_temperature := temperature;
                         plot_log_temperature := log10 temperature;
                         plot_validity := fmul (validity r) (of_Z 100);
                         plot_uniqueness := fmul (uniqueness r) (of_Z 100) |})
                (filter (fun r => String.eqb (keep r) "1.0") rows))
      as (plot & Hplot & _); [|eauto].
    intros r Hr. apply filter_In in Hr. destruct Hr as [Hr Hk].
    destruct (Hp r Hr Hk) as [x ->]. cbn [bind]. eauto.
Qed.
End Plots.

(** The small instance meets what [all_results_total] asks of the
    libraries. *)
Lemma small_libs_succeed (s : setting) :
  exists ms vs,
    get_all_molecules (Libs := small_libs) (path_of s) = Ok ms
    /\ get_all_valid_molecules (Libs := small_libs) ms = Ok vs
    /\ (vs <> [] ->
        (exists v, compute_validity (Libs := small_libs) ms vs = Ok v)
        /\ exists u, compute_uniqueness (Libs := small_libs) vs = Ok u).
Proof.
  cbn [get_all_molecules get_all_valid_molecules compute_validity
         compute_uniqueness small_libs].
  unfold small_load. destruct (contains _ _).
  - exists [-1; -2], []. repeat split; congruence.
  - exists [1; 2; -3; 2], [1; 2; 2]. repeat split; eexists; reflexivity.
Qed.

(** C6, as stated, fails: a model can be loaded and still get no row. In
    the small instance the directory of [pit=0.01, fait=0.01] exists, so
    its molecules are loaded, yet none of them is valid and the results
    hold no row for it. *)
Lemma every_loaded_model_has_row_counterexample :
  ~ (forall (M : Libs) rows,
        all_results_df = Ok rows ->
        forall s, In s (Dict.keys generated_paths) ->
                  exists r, In r rows /\ pit r = fst s /\ fait r = snd s).
Proof.
  intros H.
  destruct (TemperatureFacts.all_results_total (M := small_libs))
    as [rows Hrows]; [intros s _ _; apply small_libs_succeed|].
  destruct (H small_libs rows Hrows ("0.01", "0.01")%string)
    as (r & Hr & Hp & Hf).
  - rewrite TemperatureFacts.generated_paths_eq. unfold Dict.keys.
    rewrite map_map. cbn [fst]. rewrite map_id.
    apply filter_In. split; [now left|]. vm_compute. reflexivity.
  - apply TemperatureFacts.all_results_rows in Hrows.
    destruct Hrows as (Hkeys & _).
    apply (in_map key) in Hr. rewrite Hkeys in Hr.
    apply filter_In in Hr. destruct Hr as [_ Hk].
    unfold key in Hk. cbn [fst snd] in Hp, Hf.
    rewrite Hp, Hf in Hk. vm_compute in Hk. discriminate.
Qed.

(** C6, amended. In the temperature-ablation notebook every setting whose
    directory exists and holds at least one valid molecule gets exactly one
    row, in grid order and no other row appears, and the row holds both
    metrics: the validity and the uniqueness that the library computed from
    the molecules loaded for that setting. In the OpenBabel notebook the
    validity table and the uniqueness table each have one row and one
    column per configured model. *)
Theorem metrics_cover_models {M : Libs} :
  (forall rows, all_results_df = Ok rows ->
     map (fun r => (pit r, fait r)) rows = filter kept grid
     /\ NoDup (map (fun r => (pit r, fait r)) rows)
     /\ forall r, In r rows ->
          exists ms vs,
            get_all_molecules (template (pit r) (fait r)) = Ok ms
            /\ get_all_valid_molecules ms = Ok vs
            /\ compute_validity ms vs = Ok (validity r)
            /\ compute_uniqueness vs = Ok (uniqueness r))
  /\ (forall t, OpenBabel.validity_table = Ok t ->
        index t = [VStr "Validity via OpenBabel"]
        /\ columns t = map VStr OpenBabel.models
        /\ exists cells,
             data t = [cells]
             /\ List.length cells = List.length OpenBabel.models)
  /\ (forall t, OpenBabel.uniqueness_table = Ok t ->
        index t = [VStr "Uniqueness via OpenBabel"]
        /\ columns t = map VStr OpenBabel.models
        /\ exists cells,
             data t = [cells]
             /\ List.length cells = List.length OpenBabel.models).
Proof.
  split; [|split].
  - intros rows H.
    pose proof (TemperatureFacts.all_results_rows rows H)
      as (Hkeys & Hm & Hlibs).
    change (map (fun r => (pit r, fait r)) rows)
      with (map key rows).
    split; [exact Hkeys|]. split.
    + rewrite Hkeys. apply NoDup_filter, TemperatureFacts.grid_NoDup.
    + now apply TemperatureFacts.all_results_measured.
  - intros t H. apply OpenBabelFacts.validity_table_cells in H.
    destruct H as (Hi & Hc & Hd & _). auto.
  - intros t H. apply OpenBabelFacts.uniqueness_table_cells in H.
    destruct H as (Hi & Hc & Hd & _). auto.
Qed.

(** C7. The notebooks only rescale and format what the metric functions
    return. Each entry of the OpenBabel validity table is the fraction
    [compute_validity] returned for the model, times 100, written with two
    decimals; each entry of the uniqueness table is the fraction
    [compute_uniqueness_with_openbabel] returned, times 100, rounded to two
    decimals and written with two decimals. Each of the two temperature
    plots has exactly one point per row of its selection ([fait == "1.0"],
    resp. [pit == "1.0"]), in the order of the rows; the point of a row is
    placed at the inverse temperature of the row's own setting, and its
    coordinates are the fractions that [compute_validity] and
    [compute_uniqueness] returned for the molecules of that setting, times
    100. The frame of a plot is built exactly when the results have a row
    and the swept column of each selected row reads as a float. *)
Theorem metrics_scaled_by_100 {M : Libs} :
  (forall t model path,
     OpenBabel.validity_table = Ok t ->
     Dict.get String.eqb model OpenBabel.generated_paths = Some path ->
     exists all valid v,
       get_all_molecules_with_openbabel path = Ok all
       /\ get_all_valid_molecules_with_openbabel all = Ok valid
       /\ compute_validity all valid = Ok v
       /\ cell t "Validity via OpenBabel" model
          = Some (VStr (format_f 2 (fmul v (of_Z 100)))))
  /\ (forall t model path,
        OpenBabel.uniqueness_table = Ok t ->
        Dict.get String.eqb model OpenBabel.generated_paths = Some path ->
        exists all valid u,
          get_all_molecules_with_openbabel path = Ok all
          /\ get_all_valid_molecules_with_openbabel all = Ok valid
          /\ compute_uniqueness_with_openbabel valid = Ok u
          /\ cell t "Uniqueness via OpenBabel" model
             = Some (VStr (format_f 2 (round_ 2 (fmul u (of_Z 100))))))
  /\ (forall rows plot,
        all_results_df = Ok rows ->
        (position_temperature_plot rows = Ok plot ->
         Forall2
           (fun r p =>
              parse_float (pit r) = Ok (plot_inverse_temperature p)
              /\ exists ms vs v u,
                   get_all_molecules (template (pit r) (fait r)) = Ok ms
                   /\ get_all_valid_molecules ms = Ok vs
                   /\ compute_validity ms vs = Ok v
                   /\ compute_uniqueness vs = Ok u
                   /\ plot_validity p = fmul v (of_Z 100)
                   /\ plot_uniqueness p = fmul u (of_Z 100))
           (filter (fun r => String.eqb (fait r) "1.0") rows) plot)
        /\ (focus_temperature_plot rows = Ok plot ->
            Forall2
              (fun r p =>
                 parse_float (fait r) = Ok (plot_inverse_temperature p)
                 /\ exists ms vs v u,
                      get_all_molecules (template (pit r) (fait r)) = Ok ms
                      /\ get_all_valid_molecules ms = Ok vs
                      /\ compute_validity ms vs = Ok v
                      /\ compute_uniqueness vs = Ok u
                      /\ plot_validity p = fmul v (of_Z 100)
                      /\ plot_uniqueness p = fmul u (of_Z 100))
              (filter (fun r => String.eqb (pit r) "1.0") rows) plot))
  /\ (forall rows : list results_row,
        ((exists plot, position_temperature_plot rows = Ok plot)
         <-> rows <> []
             /\ forall r, In r rows -> String.eqb (fait r) "1.0" = true ->
                  exists x, parse_float (pit r) = Ok x)
        /\ ((exists plot, focus_temperature_plot rows = Ok plot)
            <-> rows <> []
                /\ forall r, In r rows -> String.eqb (pit r) "1.0" = true ->
                     exists x, parse_float (fait r) = Ok x)).
Proof.
  split; [|split; [|split]].
  - intros t model path H Hget.
    apply OpenBabelFacts.validity_table_cells in H.
    destruct H as (_ & _ & _ & H). now apply H.
  - intros t model path H Hget.
    apply OpenBabelFacts.uniqueness_table_cells in H.
    destruct H as (_ & _ & _ & H). now apply H.
  - intros rows plot Hrows.
    pose proof (TemperatureFacts.all_results_measured rows Hrows) as Hm.
    assert (Hpoints : forall keep swept,
               scatter_data keep swept rows = Ok plot ->
               Forall2
                 (fun r p =>
                    parse_float (swept r) = Ok (plot_inverse_temperature p)
                    /\ exists ms vs v u,
                         get_all_molecules (template (pit r) (fait r))
                         = Ok ms
                         /\ get_all_valid_molecules ms = Ok vs
                         /\ compute_validity ms vs = Ok v
                         /\ compute_uniqueness vs = Ok u
                         /\ plot_validity p = fmul v (of_Z 100)
                         /\ plot_uniqueness p = fmul u (of_Z 100))
                 (filter (fun r => String.eqb (keep r) "1.0") rows) plot).
    { intros keep swept H. apply scatter_data_points in H.
      assert (Hsel : forall r,
                 In r (filter (fun r => String.eqb (keep r) "1.0") rows) ->
                 In r rows) by (intros r Hr; now apply filter_In in Hr).
      induction H as [|r p rs ps (Hx & Hv & Hu) _ IH]; constructor.
      - split; [exact Hx|].
        destruct (Hm r (Hsel r (or_introl eq_refl)))
          as (ms & vs & Hl & Hvl & Hcv & Hcu).
        exists ms, vs, (validity r), (uniqueness r). auto 10.
      - apply IH. intros r' Hr'. apply Hsel. now right. }
    split; intros H; exact (Hpoints _ _ H).
  - intros rows. split; apply scatter_data_completes.
Qed.

(** The cells complete on the small instance: 16 of the 25 settings give
    a row, and the tables hold the scaled fractions. *)
Example small_results :
  exists rows,
    all_results_df (M := small_libs) = Ok rows
    /\ List.length rows = 16%nat.
Proof.
  destruct (TemperatureFacts.all_results_total (M := small_libs))
    as [rows Hrows]; [intros s _ _; apply small_libs_succeed|].
  exists rows. split; [exact Hrows|].
  apply TemperatureFacts.all_results_rows in Hrows.
  destruct Hrows as (Hkeys & _).
  rewrite <- (length_map key), Hkeys. vm_compute. reflexivity.
Qed.

(** On the small instance each plot shows four of the 16 rows. *)
Example small_plots :
  exists rows position focus,
    all_results_df (M := small_libs) = Ok rows
    /\ position_temperature_plot rows = Ok position
    /\ focus_temperature_plot rows = Ok focus
    /\ List.length position = 4%nat
    /\ List.length focus = 4%nat.
Proof.
  do 3 eexists. split; [reflexivity|]. split; [reflexivity|].
  split; [reflexivity|]. split; reflexivity.
Qed.

Example small_validity_table :
  OpenBabel.validity_table (M := small_libs)
  = Ok {| index := [VStr "Validity via OpenBabel"];
          columns := map VStr OpenBabel.models;
          data := [[VStr "75.00"; VStr "75.00"; VStr "75.00"; VStr "75.00";
                    VStr "75.00"]] |}.
Proof. reflexivity. Qed.

Example small_uniqueness_table :
  OpenBabel.uniqueness_table (M := small_libs)
  = Ok {| index := [VStr "Uniqueness via OpenBabel"];
          columns := map VStr OpenBabel.models;
          data := [[VStr "66.00"; VStr "66.00"; VStr "66.00"; VStr "66.00";
                    VStr "66.00"]] |}.
Proof. reflexivity. Qed.

End MetricsFacts.

(** ** Python strings *)

Module PyFacts.

Lemma append_assoc (a b c : string) : ((a ^^ b) ^^ c = a ^^ b ^^ c)%string.
Proof. induction a as [|x a IH]; simpl; [reflexivity|now rewrite IH]. Qed.

Lemma append_nil_r (a : string) : (a ^^ EmptyString)%string = a.
Proof. induction a as [|x a IH]; simpl; [reflexivity|now rewrite IH]. Qed.

Lemma append_inv_head (a b c : string) : (a ^^ b = a ^^ c)%string -> b = c.
Proof.
  induction a as [|x a IH]; simpl; [easy|]. intros H. injection H as H. auto.
Qed.

Lemma occurs_app (c : ascii) (a b : string) :
  Py.occurs c (a ^^ b) = Py.occurs c a || Py.occurs c b.
Proof.
  induction a as [|x a IH]; simpl; [reflexivity|].
  now rewrite IH, orb_assoc.
Qed.

Lemma replace_app (old : ascii) (new a b : string) :
  Py.replace old new (a ^^ b)
  = (Py.replace old new a ^^ Py.replace old new b)%string.
Proof.
  induction a as [|x a IH]; simpl; [reflexivity|].
  destruct (Ascii.eqb x old); rewrite IH; [now rewrite append_assoc|easy].
Qed.

Lemma replace_absent (old : ascii) (new s : string) :
  Py.occurs old s = false -> Py.replace old new s = s.
Proof.
  induction s as [|x s IH]; simpl; [reflexivity|]. intros H.
  apply orb_false_iff in H. destruct H as [-> H]. now rewrite IH.
Qed.

(** Deleting a character from a text around two parts free of it. *)
Lemma replace_parts (c : ascii) (p q r a b : string) :
  Py.occurs c a = false -> Py.occurs c b = false ->
  Py.replace c EmptyString (p ^^ b ^^ q ^^ a ^^ r)
  = (Py.replace c EmptyString p ^^ b ^^ Py.replace c EmptyString q ^^ a
     ^^ Py.replace c EmptyString r)%string.
Proof.
  intros Ha Hb. rewrite !replace_app.
  now rewrite (replace_absent c _ a Ha), (replace_absent c _ b Hb).
Qed.

(** Deleting a character brings no other character in. *)
Lemma occurs_replace (c old : ascii) (s : string) :
  Py.occurs c s = false ->
  Py.occurs c (Py.replace old EmptyString s) = false.
Proof.
  induction s as [|x s IH]; simpl; [reflexivity|]. intros H.
  apply orb_false_iff in H. destruct H as [Hx H].
  destruct (Ascii.eqb x old); simpl; [auto|]. now rewrite Hx, IH.
Qed.

Lemma split_absent (sep : ascii) (s : string) :
  Py.occurs sep s = false -> Py.split sep s = [s].
Proof.
  induction s as [|x s IH]; simpl; [reflexivity|]. intros H.
  apply orb_false_iff in H. destruct H as [-> H]. now rewrite IH.
Qed.

Lemma split_app (sep : ascii) (a b : string) :
  Py.occurs sep a = false ->
  Py.split sep (a ^^ String sep b) = a :: Py.split sep b.
Proof.
  induction a as [|x a IH]; simpl; intros H.
  - now rewrite Ascii.eqb_refl.
  - apply orb_false_iff in H. destruct H as [-> H]. now rewrite IH.
Qed.

Lemma rstrip_absent (c : ascii) (s : string) :
  Py.occurs c s = false -> Py.rstrip c s = s.
Proof.
  induction s as [|x s IH]; simpl; [reflexivity|]. intros H.
  apply orb_false_iff in H. destruct H as [Hx H]. rewrite IH by exact H.
  destruct s; [now rewrite Hx|reflexivity].
Qed.

Lemma lstrip_absent (c : ascii) (s : string) :
  Py.occurs c s = false -> Py.lstrip c s = s.
Proof.
  destruct s as [|x s]; simpl; [reflexivity|]. intros H.
  apply orb_false_iff in H. now destruct H as [-> _].
Qed.

(** What follows a part that does not strip to nothing is kept. *)
Lemma rstrip_app_kept (c : ascii) (a b : string) :
  Py.rstrip c b <> EmptyString ->
  Py.rstrip c (a ^^ b) = (a ^^ Py.rstrip c b)%string.
Proof.
  intros Hb. induction a as [|x a IH]; simpl; [reflexivity|].
  rewrite IH. destruct (a ^^ Py.rstrip c b)%string eqn:E; [|reflexivity].
  destruct a; simpl in E; [contradiction|discriminate].
Qed.

Lemma rstrip_app_gone (c : ascii) (a b : string) :
  Py.rstrip c b = EmptyString -> Py.rstrip c (a ^^ b) = Py.rstrip c a.
Proof.
  intros Hb. induction a as [|x a IH]; simpl; [exact Hb|]. now rewrite IH.
Qed.

Lemma rstrip_prefix (c : ascii) (s : string) :
  exists tail, s = (Py.rstrip c s ^^ tail)%string.
Proof.
  induction s as [|x s [tail IH]]; simpl; [now exists EmptyString|].
  destruct (Py.rstrip c s) eqn:E.
  - destruct (Ascii.eqb x c).
    + now exists (String x s).
    + exists s. reflexivity.
  - exists tail. cbn [String.append]. f_equal. exact IH.
Qed.

Lemma rstrip_idempotent (c : ascii) (s : string) :
  Py.rstrip c (Py.rstrip c s) = Py.rstrip c s.
Proof.
  induction s as [|x s IH]; simpl; [reflexivity|].
  destruct (Py.rstrip c s) eqn:E.
  - destruct (Ascii.eqb x c) eqn:Ex; simpl; [reflexivity|now rewrite Ex].
  - simpl in *. now rewrite IH.
Qed.

(** *** Decimal numerals *)

Lemma uint_chars (c : ascii) (d : Decimal.uint) :
  Py.occurs c (NilEmpty.string_of_uint d) = true -> Py.digit_or_minus c = true.
Proof.
  induction d; cbn [NilEmpty.string_of_uint Py.occurs];
    try discriminate; intros H;
    apply orb_true_iff in H; destruct H as [H|H]; auto;
    apply Ascii.eqb_eq in H; subst c; reflexivity.
Qed.

Lemma nilzero_uint_chars (c : ascii) (d : Decimal.uint) :
  Py.occurs c (NilZero.string_of_uint d) = true -> Py.digit_or_minus c = true.
Proof.
  destruct d; try apply uint_chars.
  cbn [NilZero.string_of_uint Py.occurs]. rewrite orb_false_r. intros H.
  apply Ascii.eqb_eq in H. now subst c.
Qed.

Lemma str_chars (c : ascii) (z : Z) :
  Py.digit_or_minus c = false -> Py.occurs c (Py.str z) = false.
Proof.
  intros Hc. destruct (Py.occurs c (Py.str z)) eqn:E; [|reflexivity].
  assert (Py.digit_or_minus c = true); [|congruence].
  unfold Py.str in E.
  destruct (Z.to_int z) as [d|d]; cbn [NilZero.string_of_int Py.occurs] in E.
  - now apply nilzero_uint_chars in E.
  - apply orb_true_iff in E. destruct E as [E|E].
    + apply Ascii.eqb_eq in E. now subst c.
    + now apply nilzero_uint_chars in E.
Qed.

Lemma int_of_string_of_int (d : Decimal.signed_int) :
  exists d',
    NilZero.int_of_string (NilZero.string_of_int d) = Some d'
    /\ Z.of_int d' = Z.of_int d.
Proof.
  destruct d as [[| | | | | | | | | |]|[| | | | | | | | | |]];
    try (eexists; split; [apply NilZero.isi; discriminate|reflexivity]).
  - eexists. split; [apply NilZero.isi_posnil|reflexivity].
  - eexists. split; [apply NilZero.isi_negnil|reflexivity].
Qed.

(** Reading back what [str] wrote, blanks around it or not. *)
Lemma int_str (z : Z) : Py.int (Py.str z) = Ok z.
Proof.
  unfold Py.int.
  rewrite lstrip_absent, rstrip_absent by (now apply str_chars).
  unfold Py.str. destruct (int_of_string_of_int (Z.to_int z)) as (d & -> & E).
  now rewrite E, DecimalZ.of_to.
Qed.

Lemma int_blank_str (z : Z) : Py.int (String " " (Py.str z)) = Ok z.
Proof.
  unfold Py.int. cbn [Py.lstrip]. change (Ascii.eqb " " " ") with true.
  cbv iota. apply int_str.
Qed.

End PyFacts.

(** ** The plots of the [resolution_random_points] notebook *)

Module ResolutionPlotFacts.
Import ResolutionRandomPoints ResolutionPlots.

(** The two fields of a label, as the parser cuts them out. *)
Lemma label_fields (res_alpha res_beta : Z) :
  let label :=
    Py.replace ")" EmptyString
      (Py.replace "(" EmptyString
         (Py.replace "$" EmptyString (label_of res_alpha res_beta))) in
  exists fields,
    Py.index (Py.split "=" label) 1 = Ok fields
    /\ Py.split "," fields
       = [String " " (Py.str res_beta); Py.str res_alpha].
Proof.
  unfold label_of.
  assert (Hc : forall c, Py.digit_or_minus c = false ->
                         forall z, Py.occurs c (Py.str z) = false)
    by (intros c Hc z; now apply PyFacts.str_chars).
  set (b := Py.str res_beta) in *. set (a := Py.str res_alpha) in *.
  assert (E : Py.replace ")" EmptyString
                (Py.replace "(" EmptyString
                   (Py.replace "$" EmptyString
                      ("$(r_\theta, r_\phi) = (" ^^ b ^^ "," ^^ a ^^ ")$")))
              = ("r_\theta, r_\phi "
                 ^^ String "=" (String " " b ^^ String "," a))%string).
  { rewrite (PyFacts.replace_parts "$") by (apply Hc; reflexivity).
    change (Py.replace "$" EmptyString "$(r_\theta, r_\phi) = (")
      with "(r_\theta, r_\phi) = ("%string.
    change (Py.replace "$" EmptyString ",") with ","%string.
    change (Py.replace "$" EmptyString ")$") with ")"%string.
    rewrite (PyFacts.replace_parts "(") by (apply Hc; reflexivity).
    change (Py.replace "(" EmptyString "(r_\theta, r_\phi) = (")
      with "r_\theta, r_\phi) = "%string.
    change (Py.replace "(" EmptyString ",") with ","%string.
    change (Py.replace "(" EmptyString ")") with ")"%string.
    rewrite (PyFacts.replace_parts ")") by (apply Hc; reflexivity).
    change (Py.replace ")" EmptyString "r_\theta, r_\phi) = ")
      with "r_\theta, r_\phi = "%string.
    change (Py.replace ")" EmptyString ",") with ","%string.
    change (Py.replace ")" EmptyString ")") with EmptyString.
    rewrite PyFacts.append_nil_r. reflexivity. }
  cbv zeta. rewrite E. clear E.
  rewrite PyFacts.split_app by reflexivity.
  rewrite PyFacts.split_absent.
  2:{ cbn [Py.occurs String.append]. rewrite PyFacts.occurs_app.
      cbn [Py.occurs]. subst a b. rewrite !Hc by reflexivity. reflexivity. }
  cbn [Py.index nth_error]. eexists. split; [reflexivity|].
  rewrite PyFacts.split_app.
  2:{ cbn [Py.occurs]. subst b. rewrite Hc by reflexivity. reflexivity. }
  rewrite PyFacts.split_absent by (subst a; apply Hc; reflexivity).
  reflexivity.
Qed.

Lemma extract_label {H : Type} (res_alpha res_beta : Z) (handle : H) :
  extract_resolution_from_label (label_of res_alpha res_beta, handle)
  = Ok (res_beta * res_alpha).
Proof.
  unfold extract_resolution_from_label.
  destruct (label_fields res_alpha res_beta) as (fields & Hf & Hs).
  cbv zeta in Hf. rewrite Hf. cbn [bind]. rewrite Hs.
  cbn [bind Py.index nth_error].
  rewrite PyFacts.int_blank_str. cbn [bind].
  now rewrite PyFacts.int_str.
Qed.

(** X1. Reading a legend label back: for every pair of resolutions, the
    label the plotting loop writes for it is read by
    [extract_resolution_from_label] as the product of the two, whatever the
    handle; so two labels get the same sort key exactly when their
    products agree. *)
Theorem extract_resolution_of_label {H : Type}
    (res_alpha res_beta res_alpha' res_beta' : Z) (handle handle' : H) :
  extract_resolution_from_label (label_of res_alpha res_beta, handle)
  = Ok (res_beta * res_alpha)
  /\ (extract_resolution_from_label (label_of res_alpha res_beta, handle)
      = extract_resolution_from_label (label_of res_alpha' res_beta', handle')
      <-> res_beta * res_alpha = res_beta' * res_alpha').
Proof.
  assert (Hread : forall (a b : Z) (h : H),
             extract_resolution_from_label (label_of a b, h) = Ok (b * a)).
  { intros a b h. unfold extract_resolution_from_label.
    destruct (label_fields a b) as (fields & Hf & Hs).
    cbv zeta in Hf. rewrite Hf. cbn [bind]. rewrite Hs.
    cbn [bind Py.index nth_error].
    rewrite PyFacts.int_blank_str. cbn [bind].
    now rewrite PyFacts.int_str. }
  rewrite !Hread. split; [reflexivity|].
  split; [now intros [= ->]|now intros ->].
Qed.

(** X2. A label without an equals sign cannot be read: the parser raises
    [IndexError], at [label.split("=")[1]]. *)
Theorem extract_resolution_without_equals {H : Type} (label : string)
    (handle : H) :
  Py.occurs "=" label = false ->
  extract_resolution_from_label (label, handle) = Raise IndexError.
Proof.
  intros Hno. unfold extract_resolution_from_label.
  rewrite PyFacts.split_absent
    by (do 3 apply PyFacts.occurs_replace; exact Hno).
  reflexivity.
Qed.

Lemma extract_resolution_without_equals_witness :
  extract_resolution_from_label ("(10,9)"%string, tt) = Raise IndexError.
Proof.
  apply (extract_resolution_without_equals "(10,9)" tt). reflexivity.
Defined.

(** *** Sorting the legend *)

Lemma insert_perm {A : Type} (k : Z) (a : A) (l : list (Z * A)) :
  Permutation (Py.insert k a l) ((k, a) :: l).
Proof.
  induction l as [|[k' a'] l IH]; simpl; [reflexivity|].
  destruct (k' <=? k); [|reflexivity].
  rewrite IH. apply perm_swap.
Qed.

Lemma insert_sorted {A : Type} (k : Z) (a : A) (l : list (Z * A)) :
  StronglySorted Py.by_key l -> StronglySorted Py.by_key (Py.insert k a l).
Proof.
  induction 1 as [|[k' a'] l Hs IH Hall]; simpl.
  - repeat constructor.
  - destruct (Z.leb_spec k' k).
    + constructor; [exact IH|].
      apply (Permutation_Forall (x := (k, a) :: l)).
      * symmetry. apply insert_perm.
      * constructor; [exact H|exact Hall].
    + constructor; [now constructor|].
      constructor; [unfold Py.by_key; simpl; lia|].
      rewrite Forall_forall in *. intros q Hq. specialize (Hall q Hq).
      unfold Py.by_key in *. simpl in *. lia.
Qed.

Lemma insert_all {A : Type} (keyed acc : list (Z * A)) :
  StronglySorted Py.by_key acc ->
  let out := fold_left (fun acc ka => Py.insert (fst ka) (snd ka) acc)
               keyed acc in
  StronglySorted Py.by_key out /\ Permutation out (acc ++ keyed).
Proof.
  revert acc. induction keyed as [|[k a] keyed IH]; intros acc Hs; simpl.
  - now rewrite app_nil_r.
  - destruct (IH (Py.insert k a acc) (insert_sorted k a acc Hs))
      as [Hs' Hp].
    split; [exact Hs'|]. rewrite Hp, insert_perm.
    apply Permutation_middle.
Qed.

Lemma traverse_all_Ok {A B : Type} (f : A -> result B) (g : A -> B)
    (l : list A) :
  (forall a, In a l -> f a = Ok (g a)) -> traverse f l = Ok (map g l).
Proof.
  induction l as [|a l IH]; intros H; simpl; [reflexivity|].
  rewrite (H a) by now left. cbn [bind].
  rewrite IH by (intros; apply H; now right). reflexivity.
Qed.

(** [sorted] with a key that succeeds on every item. *)
Lemma sorted_spec {A : Type} (key : A -> result Z) (kf : A -> Z)
    (l : list A) :
  (forall a, In a l -> key a = Ok (kf a)) ->
  exists out,
    Py.sorted key l = Ok out
    /\ Permutation out l
    /\ StronglySorted Z.le (map kf out).
Proof.
  intros Hkey. unfold Py.sorted.
  rewrite (traverse_all_Ok _ (fun a => (kf a, a))).
  2:{ intros a Ha. now rewrite (Hkey a Ha). }
  cbn [bind].
  destruct (insert_all (map (fun a => (kf a, a)) l) [] (SSorted_nil _))
    as [Hs Hp].
  cbv zeta in Hs, Hp. cbn [app] in Hp.
  set (out := fold_left _ _ _) in *.
  exists (map snd out). split; [reflexivity|]. split.
  - rewrite Hp, map_map. cbn [snd]. now rewrite map_id.
  - assert (Hk : forall p, In p out -> fst p = kf (snd p)).
    { intros p Hin. apply (Permutation_in _ Hp) in Hin.
      apply in_map_iff in Hin. now destruct Hin as (a & <- & _). }
    clear Hp. induction Hs as [|p out Hs IH Hall]; simpl; constructor.
    + apply IH. intros q Hq. apply Hk. now right.
    + rewrite Forall_forall in *. intros z Hz.
      apply in_map_iff in Hz. destruct Hz as (q & <- & Hq).
      apply in_map_iff in Hq. destruct Hq as (q' & <- & Hq').
      rewrite <- (Hk p) by now left.
      rewrite <- (Hk q') by now right. now apply Hall.
Qed.

(** X3. The legend is sorted by resolution: when every curve carries the
    label of its pair of resolutions, the legend is built without error,
    holds every curve once under its own label, and lists them by
    non-decreasing product of the two resolutions. *)
Theorem legend_sorted_by_resolution {L : Libs} (curves : list curve)
    (resolution : curve -> Z * Z) :
  (forall c, In c curves ->
             curve_label c
             = label_of (fst (resolution c)) (snd (resolution c))) ->
  exists entries,
    legend curves = Ok entries
    /\ Permutation (map snd entries) curves
    /\ (forall e, In e entries -> fst e = curve_label (snd e))
    /\ StronglySorted Z.le
         (map (fun e => snd (resolution (snd e)) * fst (resolution (snd e)))
            entries).
Proof.
  intros Hlabel. unfold legend.
  destruct (sorted_spec extract_resolution_from_label
              (fun e : string * curve =>
                 snd (resolution (snd e)) * fst (resolution (snd e)))
              (map (fun c => (curve_label c, c)) curves))
    as (entries & -> & Hp & Hs).
  - intros e He. apply in_map_iff in He. destruct He as (c & <- & Hc).
    cbn [snd]. rewrite (Hlabel c Hc). apply extract_label.
  - exists entries. split; [reflexivity|]. split; [|split].
    + rewrite Hp, map_map. cbn [snd]. now rewrite map_id.
    + intros e He. apply (Permutation_in _ Hp) in He.
      apply in_map_iff in He. now destruct He as (c & <- & _).
    + exact Hs.
Qed.

End ResolutionPlotFacts.

(** ** More on the training loop and the grid of the notebook *)

Module TrainingFacts.
Import ResolutionRandomPoints ResolutionPlots.

Lemma pair_eq_fst {A B : Type} {a : A} {b : B} {p : A * B} :
  (a, b) = p -> a = fst p.
Proof. now intros <-. Qed.

Lemma range_nonpos (n : Z) : n <= 0 -> range n = [].
Proof.
  intros H. unfold range. replace (Z.to_nat n) with 0%nat by lia. reflexivity.
Qed.

Lemma range_app (n m : Z) :
  n <= m -> exists rest, range m = range n ++ rest.
Proof.
  intros H. destruct (Z.le_gt_cases n 0) as [Hn|Hn].
  - rewrite (range_nonpos n Hn). now exists (range m).
  - unfold range.
    replace (Z.to_nat m) with (Z.to_nat n + Z.to_nat (m - n))%nat by lia.
    rewrite seq_app, map_app. eauto.
Qed.

Lemma range_last (m : Z) : 1 <= m -> range m = range (m - 1) ++ [m - 1].
Proof.
  intros H. rewrite (range_of_nat m), (range_of_nat (m - 1)).
  replace (Z.to_nat m) with (S (Z.to_nat (m - 1))) by lia.
  rewrite range_succ. do 2 f_equal. lia.
Qed.

Lemma every_10_range_nat (k : nat) :
  filter every_10 (range (Z.of_nat k))
  = map (Z.mul 10) (range ((Z.of_nat k + 9) / 10)).
Proof.
  induction k as [|k IH]; [reflexivity|].
  rewrite range_succ, filter_app, IH. cbn [filter]. unfold every_10.
  destruct (Z.eqb_spec (Z.of_nat k mod 10) 0) as [E|E].
  - replace ((Z.of_nat (S k) + 9) / 10) with ((Z.of_nat k + 9) / 10 + 1)
      by (rewrite Nat2Z.inj_succ; Z.div_mod_to_equations; lia).
    rewrite (range_last ((Z.of_nat k + 9) / 10 + 1))
      by (Z.div_mod_to_equations; lia).
    rewrite map_app. cbn [map].
    replace ((Z.of_nat k + 9) / 10 + 1 - 1) with ((Z.of_nat k + 9) / 10)
      by lia.
    do 3 f_equal. Z.div_mod_to_equations. lia.
  - rewrite app_nil_r. do 2 f_equal.
    rewrite Nat2Z.inj_succ. Z.div_mod_to_equations. lia.
Qed.

(** The recorded steps, counted out. *)
Lemma every_10_range (n : Z) :
  filter every_10 (range n) = map (Z.mul 10) (range ((n + 9) / 10)).
Proof.
  destruct (Z.le_gt_cases n 0) as [Hn|Hn].
  - rewrite (range_nonpos n Hn), (range_nonpos ((n + 9) / 10)); [easy|].
    Z.div_mod_to_equations. lia.
  - rewrite <- (Z2Nat.id n) by lia. apply every_10_range_nat.
Qed.

Section Runs.
Context {L : Libs} {R : Random L}.
Variable random_points : array.
Variable true_signal : irreps_array.
Variables lmax position_channels res_alpha res_beta : Z.

Local Abbreviation run := (optimize_coeffs random_points true_signal lmax
                             position_channels res_alpha res_beta).
Local Abbreviation loop := (training_loop random_points true_signal lmax
                              position_channels res_alpha res_beta).
Local Abbreviation iterates := (adam_iterates true_signal lmax
                                  position_channels res_alpha res_beta).
Local Abbreviation loss := (loss_fn true_signal res_alpha res_beta).

(** What the loop prints. *)
Lemma loop_printed (k : nat) :
  ls_printed (loop (Z.of_nat k))
  = map (fun s => (s, loss (fst (iterates (Z.to_nat s)))))
      (filter (fun s => s mod 5000 =? 0) (range (Z.of_nat k))).
Proof.
  induction k as [|k IH]; [reflexivity|].
  rewrite OptimizeCoeffsFacts.loop_succ, range_succ, filter_app, map_app.
  rewrite <- IH. clear IH.
  pose proof (OptimizeCoeffsFacts.loop_params random_points true_signal lmax
                position_channels res_alpha res_beta k) as Hp.
  unfold loop_body, train_step, value_and_grad.
  destruct (adam_update _ _ _ _) as [updates st'].
  destruct (rmse_of_samples _ _ _ _) as [m sd].
  cbn [ls_printed filter].
  destruct (Z.of_nat k mod 5000 =? 0); cbn [map].
  - now rewrite Nat2Z.id, <- Hp.
  - now rewrite app_nil_r.
Qed.

Lemma run_keys (n : Z) :
  Dict.keys (run n) = map (Z.mul 10) (range ((n + 9) / 10)).
Proof.
  rewrite OptimizeCoeffsFacts.optimize_coeffs_keys. apply every_10_range.
Qed.

Lemma run_last_key (n : Z) :
  1 <= n -> last_item (Dict.keys (run n)) = Ok (10 * ((n - 1) / 10)).
Proof.
  intros Hn. rewrite run_keys.
  rewrite (range_last ((n + 9) / 10)) by (Z.div_mod_to_equations; lia).
  rewrite map_app. unfold last_item. rewrite rev_app_distr.
  cbn [map rev app first]. do 2 f_equal.
  Z.div_mod_to_equations. lia.
Qed.

(** X4. With at least one training step, the last step recorded in
    [training_dict] is the largest multiple of 10 below
    [num_training_steps], and the dictionary has one entry for every ten
    steps begun. *)
Theorem optimize_coeffs_last_step (num_training_steps : Z) :
  1 <= num_training_steps ->
  last_item (Dict.keys (run num_training_steps))
  = Ok (10 * ((num_training_steps - 1) / 10))
  /\ Z.of_nat (List.length (run num_training_steps))
     = (num_training_steps + 9) / 10.
Proof.
  intros Hn. split.
  - now apply run_last_key.
  - rewrite <- (length_map fst). fold (Dict.keys (run num_training_steps)).
    rewrite run_keys, length_map. unfold range.
    rewrite length_map, length_seq.
    apply Z2Nat.id. Z.div_mod_to_equations. lia.
Qed.

(** X5. Without a training step ([num_training_steps <= 0]) the loop body
    never runs: the coefficients stay the initial draw, nothing is printed,
    [training_dict] is empty, and reading its first key, as the grid cell
    does, raises [IndexError]. *)
Theorem optimize_coeffs_no_steps (num_training_steps : Z) :
  num_training_steps <= 0 ->
  run num_training_steps = []
  /\ loop num_training_steps
     = initial_state lmax position_channels
  /\ first (Dict.keys (run num_training_steps)) = Raise IndexError.
Proof.
  intros Hn. unfold optimize_coeffs, training_loop.
  rewrite (range_nonpos _ Hn). cbn [fold_left].
  repeat split.
Qed.

(** X6. Training longer only adds records: the [training_dict] of a run is
    a prefix of that of any run with more steps on the same arguments. *)
Theorem optimize_coeffs_prefix (n m : Z) :
  n <= m ->
  exists rest,
    optimize_coeffs random_points true_signal lmax position_channels
      res_alpha res_beta m
    = optimize_coeffs random_points true_signal lmax position_channels
        res_alpha res_beta n ++ rest.
Proof.
  intros H. rewrite !OptimizeCoeffsFacts.optimize_coeffs_dict.
  destruct (range_app n m H) as [rest ->].
  rewrite filter_app, map_app. eauto.
Qed.

(** X7. The loss is printed at the steps divisible by 5000 and at no
    other, in order; each printed step is also a recorded step, and the
    [loss_value] recorded there is the printed loss. *)
Theorem printed_losses_are_recorded (num_training_steps : Z) :
  map fst (ls_printed (loop num_training_steps))
  = filter (fun s => s mod 5000 =? 0) (range num_training_steps)
  /\ forall step loss_value,
       In (step, loss_value) (ls_printed (loop num_training_steps)) ->
       exists e,
         Dict.get Z.eqb step (run num_training_steps) = Some e
         /\ entry_loss_value e = float_of loss_value.
Proof.
  unfold training_loop. rewrite (range_of_nat num_training_steps).
  fold (loop (Z.of_nat (Z.to_nat num_training_steps))).
  rewrite loop_printed, <- (range_of_nat num_training_steps).
  split.
  - rewrite map_map. cbn [fst]. apply map_id.
  - intros step l Hin. apply in_map_iff in Hin.
    destruct Hin as (s & [= <- <-] & Hs).
    apply filter_In in Hs. destruct Hs as [Hr Hm].
    apply in_range in Hr. apply Z.eqb_eq in Hm.
    rewrite OptimizeCoeffsFacts.optimize_coeffs_get.
    replace ((0 <=? s) && (s <? num_training_steps) && every_10 s)
      with true.
    + eexists. split; reflexivity.
    + symmetry. rewrite !andb_true_iff, Z.leb_le, Z.ltb_lt.
      unfold every_10. rewrite Z.eqb_eq.
      repeat split; try lia. Z.div_mod_to_equations. lia.
Qed.
End Runs.

Section GridRows.
Context {L : Libs} {R : Random L}.
Variable random_points : array.
Variable random_signal : irreps_array.

Lemma column_of_records {A : Type} (field : entry -> A) (g : Z -> entry)
    (K : list Z) :
  column field (map (fun s => (s, g s)) K)
  = Ok (map (fun s => field (g s)) K).
Proof.
  unfold column, Dict.keys. rewrite map_map. cbn [fst]. rewrite map_id.
  apply ResolutionPlotFacts.traverse_all_Ok. intros s Hs.
  unfold Dict.item.
  now rewrite (DictFacts.get_map Z.eqb Z.eqb_eq g s K Hs).
Qed.

Lemma grid_point_eq (res_alpha res_beta lmax position_channels : Z) :
  grid_point random_points random_signal res_alpha res_beta lmax
    position_channels
  = Ok (recorded_row random_points random_signal res_alpha res_beta lmax
          position_channels).
Proof.
  unfold grid_point, recorded_row. cbv zeta.
  rewrite OptimizeCoeffsFacts.optimize_coeffs_dict, every_10_range.
  change ((10000 + 9) / 10) with 1000.
  set (K := map (Z.mul 10) (range 1000)).
  assert (HK0 : first K = Ok 0) by reflexivity.
  assert (HKl : last_item K = Ok 9990) by (vm_compute; reflexivity).
  assert (Hin : In 9990 K).
  { apply in_map_iff. exists 999. split; [reflexivity|]. apply in_range. lia. }
  clearbody K.
  set (g := recorded _ _ _ _ _ _).
  replace (Dict.keys (map (fun s => (s, g s)) K)) with K
    by (unfold Dict.keys; rewrite map_map; cbn [fst]; now rewrite map_id).
  rewrite HK0, HKl. cbn [bind].
  change (assert (0 =? 0)) with (Ok tt). cbn [bind].
  rewrite !column_of_records. cbn [bind].
  unfold Dict.item.
  rewrite (DictFacts.get_map Z.eqb Z.eqb_eq g 9990 K Hin).
  reflexivity.
Qed.

(** X8. The row the grid cell stores for a grid point: it always
    completes; the steps are the 1000 multiples of 10 below 10000; the loss
    column lists, step by step, the loss at the coefficients that step
    started from; and the stored coefficients are those recorded at step
    9990, after 9991 updates, while the loop itself goes on to the 10000-th
    update. *)
Theorem grid_point_row (res_alpha res_beta lmax position_channels : Z) :
  exists row,
    grid_point random_points random_signal res_alpha res_beta lmax
      position_channels = Ok row
    /\ row_steps row = map (Z.mul 10) (range 1000)
    /\ Z.of_nat (List.length (row_steps row)) = 1000
    /\ row_loss row
       = map (fun step =>
                float_of
                  (loss_fn random_signal res_alpha res_beta
                     (fst (adam_iterates random_signal lmax
                             position_channels res_alpha res_beta
                             (Z.to_nat step)))))
           (row_steps row)
    /\ row_coeffs row
       = array_of
           (fst (adam_iterates random_signal lmax position_channels
                   res_alpha res_beta (Z.to_nat 9991)))
    /\ ls_coeffs
         (training_loop random_points random_signal lmax position_channels
            res_alpha res_beta 10000)
       = fst (adam_iterates random_signal lmax position_channels res_alpha
                res_beta (Z.to_nat 10000)).
Proof.
  eexists. split; [apply grid_point_eq|].
  unfold recorded_row. cbn [row_steps row_loss row_coeffs].
  split; [reflexivity|]. split.
  - rewrite length_map. unfold range. rewrite length_map, length_seq. lia.
  - split; [reflexivity|]. split.
    + unfold recorded. cbn [evaluation entry_coeffs].
      replace (Z.to_nat 9991) with (S (Z.to_nat 9990)) by lia. reflexivity.
    + pose proof (OptimizeCoeffsFacts.loop_params random_points
                    random_signal lmax position_channels res_alpha res_beta
                    (Z.to_nat 10000)) as Hp.
      rewrite Z2Nat.id in Hp by lia.
      exact (pair_eq_fst Hp).
Qed.

Lemma grid_cell_eq :
  grid_cell random_points random_signal
  = Ok (map (fun p =>
               recorded_row random_points random_signal (fst p) (snd p) 5 2)
          (flat_map (fun res_alpha =>
                       map (fun res_beta => (res_alpha, res_beta)) res_betas)
             res_alphas)).
Proof.
  unfold grid_cell.
  rewrite (ResolutionPlotFacts.traverse_all_Ok _
             (fun q : Z * Z * Z * Z =>
                let '(res_alpha, res_beta, lmax, position_channels) := q in
                recorded_row random_points random_signal res_alpha res_beta
                  lmax position_channels)).
  - reflexivity.
  - intros [[[ra rb] lm] pc] _. apply grid_point_eq.
Qed.

(** X9. The plotting cell after the grid cell: every allowed pair of
    resolutions is a grid point, so no [iloc[0]] fails; the cell draws the
    five allowed curves in the order of the allowed list, each under the
    label of its pair and over the 1000 recorded steps. *)
Theorem plot_after_grid :
  exists rows curves,
    grid_cell random_points random_signal = Ok rows
    /\ plot_curves rows = Ok curves
    /\ map curve_label curves
       = map (fun p => label_of (fst p) (snd p)) allowed_res_alphas_and_betas
    /\ Forall (fun c => curve_steps c = map (Z.mul 10) (range 1000)
                        /\ List.length (curve_loss c)
                           = List.length (curve_steps c))
         curves.
Proof.
  eexists. rewrite grid_cell_eq.
  cut (exists curves,
         plot_curves
           (map (fun p =>
                   recorded_row random_points random_signal (fst p) (snd p)
                     5 2)
              (flat_map
                 (fun res_alpha =>
                    map (fun res_beta => (res_alpha, res_beta)) res_betas)
                 res_alphas)) = Ok curves
         /\ map curve_label curves
            = map (fun p => label_of (fst p) (snd p))
                allowed_res_alphas_and_betas
         /\ Forall (fun c => curve_steps c = map (Z.mul 10) (range 1000)
                             /\ List.length (curve_loss c)
                                = List.length (curve_steps c))
              curves).
  { intros (curves & H1 & H2 & H3). exists curves. auto. }
  unfold recorded_row. generalize (map (Z.mul 10) (range 1000)).
  intros K. cbv zeta. eexists.
  split; [reflexivity|]. cbn [map]. split; [reflexivity|].
  repeat (apply Forall_cons;
          [split; [reflexivity
                  |cbn [curve_loss curve_steps row_loss row_steps];
                   now rewrite length_map]|]).
  apply Forall_nil.
Qed.
End GridRows.

(** The theorem of X4 on a run of 25 steps of the small instance: the last
    recorded step is 20 and there are three records. *)
Lemma optimize_coeffs_last_step_witness :
  1 <= 25
  /\ last_item
       (Dict.keys
          (optimize_coeffs (L := small_libs) (R := small_random)
             3 100 5 2 9 10 25)) = Ok (10 * ((25 - 1) / 10))
  /\ Z.of_nat
       (List.length
          (optimize_coeffs (L := small_libs) (R := small_random)
             3 100 5 2 9 10 25)) = (25 + 9) / 10.
Proof.
  assert (H : 1 <= 25) by lia. split; [exact H|].
  exact (optimize_coeffs_last_step (L := small_libs) (R := small_random)
           3 100 5 2 9 10 25 H).
Defined.

(** The theorem of X5 on a run of minus three steps of the small
    instance. *)
Lemma optimize_coeffs_no_steps_witness :
  -3 <= 0
  /\ optimize_coeffs (L := small_libs) (R := small_random)
       3 100 5 2 9 10 (-3) = []
  /\ training_loop (L := small_libs) (R := small_random)
       3 100 5 2 9 10 (-3)
     = initial_state (L := small_libs) (R := small_random) 5 2
  /\ first
       (Dict.keys
          (optimize_coeffs (L := small_libs) (R := small_random)
             3 100 5 2 9 10 (-3))) = Raise IndexError.
Proof.
  assert (H : -3 <= 0) by lia. split; [exact H|].
  exact (optimize_coeffs_no_steps (L := small_libs) (R := small_random)
           3 100 5 2 9 10 (-3) H).
Defined.

(** The theorem of X6 on runs of 25 and of 40 steps of the small
    instance. *)
Lemma optimize_coeffs_prefix_witness :
  25 <= 40
  /\ exists rest,
       optimize_coeffs (L := small_libs) (R := small_random)
         3 100 5 2 9 10 40
       = optimize_coeffs (L := small_libs) (R := small_random)
           3 100 5 2 9 10 25 ++ rest.
Proof.
  assert (H : 25 <= 40) by lia. split; [exact H|].
  exact (optimize_coeffs_prefix (L := small_libs) (R := small_random)
           3 100 5 2 9 10 25 40 H).
Defined.

(** The theorem of X3 on [fine_curve] and [coarse_curve], drawn in the
    order (179, 180), (9, 10). *)
Lemma legend_sorted_witness :
  exists entries,
    legend [fine_curve; coarse_curve] = Ok entries
    /\ Permutation (map snd entries) [fine_curve; coarse_curve]
    /\ (forall e, In e entries -> fst e = curve_label (snd e))
    /\ StronglySorted Z.le
         (map (fun e => snd (resolution_of (snd e))
                        * fst (resolution_of (snd e))) entries).
Proof.
  apply (ResolutionPlotFacts.legend_sorted_by_resolution
           [fine_curve; coarse_curve] resolution_of).
  intros c [<-|[<-|[]]]; reflexivity.
Defined.

End TrainingFacts.

(** ** The point labels of the temperature plots *)

Module TemperatureLabelFacts.
Import TemperatureLabels.

Lemma occurs_rstrip (c d : ascii) (s : string) :
  Py.occurs c s = false -> Py.occurs c (Py.rstrip d s) = false.
Proof.
  intros H. destruct (PyFacts.rstrip_prefix d s) as [tail E].
  rewrite E, PyFacts.occurs_app in H. now apply orb_false_iff in H.
Qed.

(** X10. The label of a point is the temperature without the trailing
    zeros of its fraction: on a decimal numeral [w.f] the text keeps [w],
    and the point with the fraction up to its last non-zero digit when
    there is one. *)
Theorem temperature_text_decimal (w f : string) :
  Py.rstrip "." w = w ->
  Py.occurs "." f = false ->
  temperature_text (w ^^ String "." f)
  = match Py.rstrip "0" f with
    | EmptyString => w
    | String _ _ as digits => (w ^^ String "." digits)%string
    end.
Proof.
  intros Hw Hf. unfold temperature_text.
  assert (E : Py.rstrip "0" (String "." f) = String "." (Py.rstrip "0" f)).
  { cbn [Py.rstrip]. now destruct (Py.rstrip "0" f). }
  rewrite PyFacts.rstrip_app_kept by (rewrite E; discriminate).
  rewrite E. clear E.
  pose proof (occurs_rstrip "." "0" f Hf) as Hd.
  destruct (Py.rstrip "0" f) as [|c digits] eqn:Ed.
  - now rewrite PyFacts.rstrip_app_gone.
  - assert (E : Py.rstrip "." (String "." (String c digits))
                = String "." (String c digits)).
    { change (Py.rstrip "." (String "." (String c digits)))
        with (match Py.rstrip "." (String c digits) with
              | EmptyString => EmptyString
              | String _ _ as r => String "." r
              end).
      now rewrite (PyFacts.rstrip_absent "." _ Hd). }
    rewrite PyFacts.rstrip_app_kept by (rewrite E; discriminate).
    now rewrite E.
Qed.

Lemma temperature_text_decimal_witness :
  temperature_text "100.0" = "100"%string
  /\ temperature_text "0.010" = "0.01"%string.
Proof.
  split.
  - exact (temperature_text_decimal "100" "0" eq_refl eq_refl).
  - exact (temperature_text_decimal "0" "010" eq_refl eq_refl).
Defined.

(** X11. On any string the label is a prefix of it and does not end in a
    point; and on a string without a point, such as an integer or an
    exponent form, the trailing zeros go all the same. *)
Theorem temperature_text_any (s : string) :
  (exists tail, s = (temperature_text s ^^ tail)%string)
  /\ Py.rstrip "." (temperature_text s) = temperature_text s
  /\ (Py.occurs "." s = false -> temperature_text s = Py.rstrip "0" s).
Proof.
  unfold temperature_text. split; [|split].
  - destruct (PyFacts.rstrip_prefix "0" s) as [t0 E0].
    destruct (PyFacts.rstrip_prefix "." (Py.rstrip "0" s)) as [t1 E1].
    exists (t1 ^^ t0)%string.
    rewrite <- PyFacts.append_assoc, <- E1. exact E0.
  - apply PyFacts.rstrip_idempotent.
  - intros H. apply PyFacts.rstrip_absent. now apply occurs_rstrip.
Qed.

Example temperature_text_exponent :
  temperature_text "1e+20" = "1e+2"%string.
Proof. reflexivity. Qed.

End TemperatureLabelFacts.

(** ** When the results cell of the temperature notebook completes *)

Module ResultsFacts.
Import Metrics TemperatureAblation ResultsBinding.

(** The loop of the results cell and the frame it leaves bound. *)
Lemma results_loop_bound_spec {M : Libs}
    (generated : Dict.dict (K := setting) (V := list molecule))
    (items : list (setting * list molecule)) (df : list results_row) :
  match results_loop generated items df with
  | Ok rows => results_loop_bound generated items df = (rows, None)
  | Raise e =>
      exists done model molecules rest bound added,
        items = done ++ (model, molecules) :: rest
        /\ results_loop generated done df = Ok bound
        /\ results_loop generated [(model, molecules)] bound = Raise e
        /\ results_loop_bound generated items df = (bound, Some e)
        /\ bound = df ++ added
  end.
Proof.
  revert df. induction items as [|[model molecules] items IH]; intros df.
  - reflexivity.
  - cbn [results_loop results_loop_bound].
    destruct (Nat.eqb (List.length molecules) 0) eqn:Elen.
    + specialize (IH df). destruct (results_loop generated items df) as [|e].
      * exact IH.
      * destruct IH as (done & m & ms & rest & bound & added
                        & -> & Hdone & Hfail & Hbound & Hadd).
        exists ((model, molecules) :: done), m, ms, rest, bound, added.
        cbn [app results_loop]. rewrite Elen. auto.
    + assert (Hstop : forall e,
                 results_loop generated [(model, molecules)] df = Raise e ->
                 exists done m ms rest bound added,
                   (model, molecules) :: items = done ++ (m, ms) :: rest
                   /\ results_loop generated done df = Ok bound
                   /\ results_loop generated [(m, ms)] bound = Raise e
                   /\ (df, Some e) = (bound, Some e)
                   /\ bound = df ++ added).
      { intros e He. exists [], model, molecules, items, df, [].
        cbn [app]. rewrite app_nil_r. auto. }
      cbn [results_loop] in Hstop. rewrite Elen in Hstop.
      destruct (Dict.item setting_eqb model generated) as [g|e] eqn:Eg;
        cbn [bind] in *; [|now apply Hstop].
      destruct (compute_validity g molecules) as [v|e] eqn:Ev;
        cbn [bind] in *; [|now apply Hstop].
      destruct (compute_uniqueness molecules) as [u|e] eqn:Eu;
        cbn [bind] in *; [|now apply Hstop].
      clear Hstop. destruct model as [p f].
      set (row := {| pit := p; fait := f; validity := v; uniqueness := u |}).
      specialize (IH (df ++ [row])).
      destruct (results_loop generated items (df ++ [row])) as [|e].
      * exact IH.
      * destruct IH as (done & m & ms & rest & bound & added
                        & -> & Hdone & Hfail & Hbound & Hadd).
        exists ((p, f, molecules) :: done), m, ms, rest, bound,
          (row :: added).
        split; [reflexivity|]. split.
        { cbn [app results_loop]. rewrite Elen, Eg. cbn [bind].
          rewrite Ev. cbn [bind]. rewrite Eu. cbn [bind]. exact Hdone. }
        split; [exact Hfail|]. split; [exact Hbound|].
        rewrite Hadd, <- app_assoc. reflexivity.
Qed.

(** X12. The results cell completes exactly when the libraries succeed
    where the cell calls them: loading and filtering for every setting
    whose directory exists, both metrics for every such setting with a valid
    molecule. Its loop completes exactly when it leaves its rows bound
    with no exception; when a turn raises, the exception leaves the loop
    and [all_results_df] stays bound to the rows built before that turn,
    which are the frame a complete loop over the settings before the
    failing one gives. *)
Theorem all_results_outcome {M : Libs} :
  ((exists rows, all_results_df = Ok rows)
   <-> (forall s, In s grid -> path_exists (path_of s) = true ->
          exists ms vs,
            get_all_molecules (path_of s) = Ok ms
            /\ get_all_valid_molecules ms = Ok vs
            /\ (vs <> [] ->
                (exists v, compute_validity ms vs = Ok v)
                /\ exists u, compute_uniqueness vs = Ok u)))
  /\ (forall generated items df,
        (forall rows,
            results_loop generated items df = Ok rows
            <-> results_loop_bound generated items df = (rows, None))
        /\ (forall e,
              results_loop generated items df = Raise e ->
              exists done model molecules rest bound added,
                items = done ++ (model, molecules) :: rest
                /\ results_loop generated done df = Ok bound
                /\ results_loop generated [(model, molecules)] bound
                   = Raise e
                /\ results_loop_bound generated items df = (bound, Some e)
                /\ bound = df ++ added)).
Proof.
  split.
  - split; [|apply TemperatureFacts.all_results_total].
    intros [rows H] s Hs He.
    apply TemperatureFacts.all_results_rows in H.
    destruct H as (Hkeys & Hm & Hlibs).
    assert (Hin : In s existing) by (apply filter_In; split; assumption).
    destruct (Hlibs s Hin) as [Hl Hv].
    exists (loaded s), (valid_of s). split; [exact Hl|]. split; [exact Hv|].
    intros Hne.
    assert (Hk : In s (filter kept grid)).
    { apply filter_In. split; [exact Hs|]. unfold kept. rewrite He.
      destruct (valid_of s); [contradiction|reflexivity]. }
    rewrite <- Hkeys in Hk. apply in_map_iff in Hk.
    destruct Hk as (r & <- & Hr).
    rewrite Forall_forall in Hm. destruct (Hm r Hr) as [Hva Hun].
    split; eexists; eassumption.
  - intros generated items df.
    pose proof (results_loop_bound_spec generated items df) as Hspec.
    destruct (results_loop generated items df) as [rows'|e'].
    + split.
      * intros rows. rewrite Hspec. split; [now intros [= ->]|].
        now intros [= ->].
      * discriminate.
    + destruct Hspec as (done & m & ms & rest & bound & added
                         & Hi & Hd & Hf & Hb & Ha).
      split.
      * intros rows. rewrite Hb. split; discriminate.
      * intros e [= <-]. exists done, m, ms, rest, bound, added. auto.
Qed.

End ResultsFacts.

(** ** The tables of the OpenBabel notebook, for any models *)

Module TableFacts.
Import Metrics OpenBabel TableRows.

Lemma length_range (n : Z) : List.length (range n) = Z.to_nat n.
Proof. unfold range. now rewrite length_map, length_seq. Qed.

Section Tables.
Context {M : Libs}.

Lemma concat_records_shape (records : list (string * number)) (df : frame) :
  List.length (index df) = List.length (data df) ->
  columns (concat_records records df) = columns df
  /\ data (concat_records records df) = data df ++ map record_row records
  /\ List.length (index (concat_records records df))
     = List.length (data (concat_records records df)).
Proof.
  revert df. induction records as [|r records IH]; intros df Hlen.
  - cbn. now rewrite app_nil_r.
  - cbn [concat_records fold_left].
    destruct (IH (concat_row df (record_row r))) as (Hc & Hd & Hl).
    + cbn [concat_row index data]. rewrite length_map, length_range.
      rewrite length_app. cbn [List.length]. lia.
    + fold (concat_records records (concat_row df (record_row r))).
      rewrite Hl, Hc, Hd. cbn [concat_row columns data map].
      rewrite <- app_assoc. auto.
Qed.

Lemma metric_loop_Ok (metric : string -> list molecule -> result number)
    (items : list (string * list molecule)) (df df' : frame) :
  metric_loop metric items df = Ok df'
  <-> exists fractions,
        Forall2 (fun item v => metric (fst item) (snd item) = Ok v)
          items fractions
        /\ df' = concat_records (combine (map fst items) fractions) df.
Proof.
  revert df. induction items as [|[model molecules] items IH]; intros df.
  - cbn. split.
    + intros [= <-]. exists []. split; [constructor|reflexivity].
    + intros (fs & Hf & ->). inversion Hf. reflexivity.
  - cbn [metric_loop]. split.
    + destruct (metric model molecules) as [v|] eqn:Ev; [|discriminate].
      cbn [bind]. intros H. apply IH in H. destruct H as (fs & Hf & ->).
      exists (v :: fs). split; [now constructor|reflexivity].
    + intros (fs & Hf & ->). inversion Hf as [|? v ? fs' Hv Hf']; subst.
      cbn [fst snd] in Hv. rewrite Hv. cbn [bind]. apply IH.
      exists fs'. split; [exact Hf'|reflexivity].
Qed.

Lemma first_column (records : list (string * number)) :
  nth_column 0 (map record_row records)
  = map (fun r => VStr (fst r)) records.
Proof.
  unfold nth_column. induction records as [|r rs IH]; [reflexivity|].
  simpl. f_equal. exact IH.
Qed.

Lemma second_column (records : list (string * number)) :
  nth_column 1 (map record_row records)
  = map (fun r => VNum (snd r)) records.
Proof.
  unfold nth_column. induction records as [|r rs IH]; [reflexivity|].
  simpl. f_equal. exact IH.
Qed.

Lemma traverse_image {A : Type} (f : value -> result value)
    (h k : A -> value) (l : list A) :
  (forall a, f (h a) = Ok (k a)) ->
  traverse f (map h l) = Ok (map k l).
Proof.
  intros H. induction l as [|a l IH]; [reflexivity|].
  cbn [map traverse]. rewrite H, IH. reflexivity.
Qed.

Lemma formatted_validity_of (records : list (string * number)) (df : frame) :
  columns df = [VStr "model"; VStr "validity"] ->
  data df = map record_row records ->
  List.length (index df) = List.length (data df) ->
  formatted_validity_df df
  = Ok {| index := [VStr "Validity via OpenBabel"];
          columns := map (fun r => VStr (fst r)) records;
          data := [map (fun r => VStr (format_f 2 (fmul (snd r) (of_Z 100))))
                     records] |}.
Proof.
  destruct df as [idx cols dat]. cbn [columns data index].
  intros -> -> Hlen. rewrite length_map in Hlen.
  unfold formatted_validity_df, transpose.
  cbn [columns data index List.length seq map].
  rewrite first_column, second_column.
  cbn [iloc0 data bind]. unfold set_columns. cbn [columns index data].
  rewrite length_map, Hlen, Nat.eqb_refl. cbn [bind].
  unfold imul, drop. cbn [index columns data map combine].
  rewrite !map_map.
  cbn [existsb filter is_label fst snd negb orb String.eqb Ascii.eqb
         Bool.eqb map bind].
  unfold set_index. cbn [index List.length Nat.eqb bind columns data].
  unfold astype_float, traverse_cells. cbn [data traverse].
  rewrite (traverse_image to_float _
             (fun r => VNum (fmul (snd r) (of_Z 100)))) by reflexivity.
  cbn [bind index columns].
  unfold applymap_format_2f, traverse_cells. cbn [data traverse].
  rewrite (traverse_image format_2f _
             (fun r => VStr (format_f 2 (fmul (snd r) (of_Z 100)))))
    by reflexivity.
  reflexivity.
Qed.

Lemma formatted_uniqueness_of (records : list (string * number))
    (df : frame) :
  columns df = [VStr "model"; VStr "uniqueness"] ->
  data df = map record_row records ->
  List.length (index df) = List.length (data df) ->
  formatted_uniqueness_df df
  = Ok {| index := [VStr "Uniqueness via OpenBabel"];
          columns := map (fun r => VStr (fst r)) records;
          data := [map (fun r =>
                          VStr (format_f 2
                                  (round_ 2 (fmul (snd r) (of_Z 100)))))
                     records] |}.
Proof.
  destruct df as [idx cols dat]. cbn [columns data index].
  intros -> -> Hlen. rewrite length_map in Hlen.
  unfold formatted_uniqueness_df, transpose.
  cbn [columns data index List.length seq map].
  rewrite first_column, second_column.
  cbn [iloc0 data bind]. unfold set_columns. cbn [columns index data].
  rewrite length_map, Hlen, Nat.eqb_refl. cbn [bind].
  unfold imul, drop. cbn [index columns data map combine].
  rewrite !map_map.
  cbn [existsb filter is_label fst snd negb orb String.eqb Ascii.eqb
         Bool.eqb map bind].
  unfold astype_float, traverse_cells. cbn [data traverse].
  rewrite (traverse_image to_float _
             (fun r => VNum (fmul (snd r) (of_Z 100)))) by reflexivity.
  cbn [bind index columns].
  unfold set_index. cbn [index List.length Nat.eqb bind columns data].
  unfold round_frame. cbn [index columns data map]. rewrite map_map.
  unfold applymap_format_2f, traverse_cells. cbn [data traverse].
  rewrite (traverse_image format_2f _
             (fun r => VStr (format_f 2
                               (round_ 2 (fmul (snd r) (of_Z 100))))))
    by reflexivity.
  reflexivity.
Qed.

Lemma combine_names {A : Type} (items : list (string * A))
    (P : string * A -> number -> Prop) (fractions : list number) :
  Forall2 P items fractions ->
  map fst (combine (map fst items) fractions) = map fst items
  /\ map snd (combine (map fst items) fractions) = fractions.
Proof.
  induction 1 as [|item v items fs _ _ [IH1 IH2]]; [now split|].
  cbn [map combine fst snd]. now rewrite IH1, IH2.
Qed.

(** X13. The two table cells work for any dictionary of models, of any
    size and with any names: once the frame of fractions is built, the
    formatting steps never raise, and the printed table has the one row
    label of the cell, one column per model in dictionary order, and as
    entries the fractions times 100 in two decimals. (The header row of
    model names is multiplied by 100 as well, and dropped before the
    conversion to floats.) *)
Theorem tables_for_any_models
    (generated valid : Dict.dict (K := string) (V := list molecule))
    (df : frame) :
  (validity_openbabel_df generated valid = Ok df ->
   exists fractions,
     Forall2
       (fun item v =>
          (all <- Dict.item String.eqb (fst item) generated ;;
           compute_validity all (snd item)) = Ok v)
       (Dict.items valid) fractions
     /\ formatted_validity_df df
        = Ok {| index := [VStr "Validity via OpenBabel"];
                columns := map VStr (Dict.keys valid);
                data := [map (fun v => VStr (format_f 2 (fmul v (of_Z 100))))
                           fractions] |})
  /\ (uniqueness_openbabel_df valid = Ok df ->
      exists fractions,
        Forall2
          (fun item u => compute_uniqueness_with_openbabel (snd item) = Ok u)
          (Dict.items valid) fractions
        /\ formatted_uniqueness_df df
           = Ok {| index := [VStr "Uniqueness via OpenBabel"];
                   columns := map VStr (Dict.keys valid);
                   data := [map (fun u =>
                                   VStr (format_f 2
                                           (round_ 2 (fmul u (of_Z 100)))))
                              fractions] |}).
Proof.
  split; intros H; apply metric_loop_Ok in H;
    destruct H as (fractions & Hf & ->); exists fractions;
    (split; [exact Hf|]);
    destruct (combine_names _ _ _ Hf) as [Hn Hv];
    destruct (concat_records_shape
                (combine (map fst (Dict.items valid)) fractions)
                (empty_frame ["model"; "validity"]%string) eq_refl)
      as (Hc1 & Hd1 & Hl1);
    destruct (concat_records_shape
                (combine (map fst (Dict.items valid)) fractions)
                (empty_frame ["model"; "uniqueness"]%string) eq_refl)
      as (Hc2 & Hd2 & Hl2).
  - rewrite (formatted_validity_of _ _ Hc1 Hd1 Hl1).
    rewrite <- (map_map fst VStr), Hn.
    rewrite <- (map_map snd (fun v => VStr (format_f 2 (fmul v (of_Z 100))))).
    now rewrite Hv.
  - rewrite (formatted_uniqueness_of _ _ Hc2 Hd2 Hl2).
    rewrite <- (map_map fst VStr), Hn.
    rewrite <- (map_map snd
                  (fun u => VStr (format_f 2 (round_ 2 (fmul u (of_Z 100)))))).
    now rewrite Hv.
Qed.

(** X14. The loop that fills a metric frame stops at the first model whose
    metric raises, with that exception; it completes when the metric
    succeeds on every model, and then adds to the frame one row
    [model, fraction] per model, in order, and no column. *)
Theorem metric_loop_outcome
    (metric : string -> list molecule -> result number)
    (items : list (string * list molecule)) (df : frame) :
  (forall df',
      metric_loop metric items df = Ok df' ->
      exists fractions,
        Forall2 (fun item v => metric (fst item) (snd item) = Ok v)
          items fractions
        /\ columns df' = columns df
        /\ data df'
           = data df
             ++ map (fun r => [VStr (fst r); VNum (snd r)])
                  (combine (map fst items) fractions))
  /\ (forall e,
        metric_loop metric items df = Raise e <->
        exists done model molecules rest,
          items = done ++ (model, molecules) :: rest
          /\ (forall item, In item done ->
                exists v, metric (fst item) (snd item) = Ok v)
          /\ metric model molecules = Raise e).
Proof.
  split.
  - intros df' H. apply metric_loop_Ok in H.
    destruct H as (fractions & Hf & ->). exists fractions.
    split; [exact Hf|].
    revert df. generalize (combine (map fst items) fractions).
    induction l as [|r l IH]; intros df.
    + cbn. now rewrite app_nil_r.
    + cbn [concat_records fold_left].
      destruct (IH (concat_row df (record_row r))) as [Hc Hd].
      fold (concat_records l (concat_row df (record_row r))).
      rewrite Hc, Hd. cbn [concat_row columns data map].
      now rewrite <- app_assoc.
  - revert df. induction items as [|[model molecules] items IH]; intros df e.
    + cbn. split; [discriminate|].
      intros (d & m & ms & r & E & _). now destruct d.
    + cbn [metric_loop]. destruct (metric model molecules) as [v|e'] eqn:Ev;
        cbn [bind].
      * rewrite IH. split.
        -- intros (d & m & ms & r & -> & Hd & He).
           exists ((model, molecules) :: d), m, ms, r.
           split; [reflexivity|]. split; [|exact He].
           intros item [<-|Hin]; [eauto|auto].
        -- intros (d & m & ms & r & E & Hd & He).
           destruct d as [|item d]; cbn [app] in E.
           ++ injection E as <- <- <-. congruence.
           ++ injection E as <- ->. exists d, m, ms, r.
              split; [reflexivity|]. split; [|exact He].
              intros item Hin. apply Hd. now right.
      * split.
        -- intros [= <-]. exists [], model, molecules, items.
           split; [reflexivity|]. split; [intros ? []|exact Ev].
        -- intros (d & m & ms & r & E & Hd & He).
           destruct d as [|item d]; cbn [app] in E.
           ++ injection E as <- <- <-. congruence.
           ++ injection E as <- ->.
              destruct (Hd (model, molecules) (or_introl eq_refl)) as [v Hv].
              cbn [fst snd] in Hv. congruence.
Qed.
End Tables.
End TableFacts.

(** ** Where the launches of a sweep write *)

Module SweepOutputFacts.
Import Shell Sweeps.

Lemma NoDup_map_injective {A B : Type} (f : A -> B) (l : list A) :
  (forall x y, f x = f y -> x = y) -> NoDup l -> NoDup (map f l).
Proof.
  intros Hf. induction 1 as [|a l Ha _ IH]; cbn [map]; constructor; auto.
  intros Hin. apply in_map_iff in Hin. destruct Hin as (b & E & Hb).
  apply Hf in E. now subst.
Qed.

Lemma option_string_dec (a b : option string) : {a = b} + {a <> b}.
Proof. decide equality. apply string_dec. Defined.

Lemma NoDup_computed {A : Type} (dec : forall a b : A, {a = b} + {a <> b})
    (l : list A) :
  nodup dec l = l -> NoDup l.
Proof. intros <-. apply NoDup_nodup. Qed.

Lemma up_to_first_failure_prefix (status : launch -> nat)
    (ls : list launch) :
  exists rest, ls = up_to_first_failure status ls ++ rest.
Proof.
  induction ls as [|l ls [rest IH]]; [now exists []|].
  cbn [up_to_first_failure]. destruct (Nat.eqb (status l) 0).
  - exists rest. cbn [app]. now rewrite <- IH.
  - now exists ls.
Qed.

(** The working directories and log files of [tetris.sh], for any branch
    name. *)
Lemma tetris_outputs (w : world) :
  let branch :=
    command_output w ["git"; "symbolic-ref"; "--short"; "HEAD"]%string in
  map workdir (run_script w tetris)
  = map (fun tail =>
           Some ("--workdir=workdirs/tetris_" ^^ branch ^^ tail)%string)
      [ "/nequip/interactions=2/l=1/channels=64/";
        "/nequip/interactions=2/l=2/channels=64/";
        "/nequip/interactions=2/l=3/channels=64/";
        "/nequip/interactions=2/l=4/channels=64/";
        "/nequip/interactions=2/l=5/channels=64/" ]%string
  /\ map launch_stdout (run_script w tetris)
     = map (fun tail => Some ("tetris_" ^^ branch ^^ tail)%string)
         [ "_model=nequip_l=1_c=64_i=2.txt";
           "_model=nequip_l=2_c=64_i=2.txt";
           "_model=nequip_l=3_c=64_i=2.txt";
           "_model=nequip_l=4_c=64_i=2.txt";
           "_model=nequip_l=5_c=64_i=2.txt" ]%string.
Proof.
  destruct w as [st co]. cbn [command_output]. cbv zeta.
  set (branch := co _).
  rewrite <- (PyFacts.append_nil_r branch).
  rewrite <- (PyFacts.append_nil_r (branch ^^ EmptyString)).
  subst branch. split; vm_compute; reflexivity.
Qed.

(** X15. Runs of a sweep do not write over each other: whatever the branch
    name and the exit statuses, no two launches of [tetris.sh] share a
    working directory or a log file, and no two launches of the
    learning-rates script share a working directory. *)
Theorem sweep_outputs_distinct (w : world) :
  NoDup (map workdir (run_script w tetris))
  /\ NoDup (map launch_stdout (run_script w tetris))
  /\ NoDup (map workdir (run_script w learning_rates))
  /\ ~ In None (map workdir (run_script w tetris)
                ++ map launch_stdout (run_script w tetris)
                ++ map workdir (run_script w learning_rates)).
Proof.
  destruct (tetris_outputs w) as [Hw Hs]. cbv zeta in Hw, Hs.
  assert (Hgrid : NoDup (map workdir learning_rates_grid))
    by (apply (NoDup_computed option_string_dec); vm_compute; reflexivity).
  assert (Hnone : ~ In None (map workdir learning_rates_grid))
    by (vm_compute; intuition discriminate).
  destruct (up_to_first_failure_prefix (exit_status w) learning_rates_grid)
    as [rest Hrest].
  rewrite <- SweepFacts.learning_rates_run in Hrest.
  rewrite Hrest, map_app in Hgrid, Hnone.
  rewrite Hw, Hs. split; [|split; [|split]].
  - apply NoDup_map_injective.
    + intros x y [= E]. now apply PyFacts.append_inv_head in E.
    + apply (NoDup_computed string_dec). vm_compute. reflexivity.
  - apply NoDup_map_injective.
    + intros x y [= E]. now apply PyFacts.append_inv_head in E.
    + apply (NoDup_computed string_dec). vm_compute. reflexivity.
  - now apply NoDup_app_remove_r in Hgrid.
  - rewrite !in_app_iff, !in_map_iff. intros [H|[H|H]].
    + destruct H as (x & E & _). discriminate.
    + destruct H as (x & E & _). discriminate.
    + apply Hnone. rewrite in_app_iff. left. apply in_map_iff. exact H.
Qed.

End SweepOutputFacts.
